(** * bos-workspace: the build pipeline of [src/lib/build.ts]

    A shallow embedding of [buildApp] and [updateIpfs] together with the
    parts of the JavaScript platform they rely on (string methods, Node's
    POSIX [path] module, plain objects used as string maps), followed by
    the properties of the build that the specification states. *)

From Stdlib Require Import String Ascii.
From stdpp Require Import gmap strings list fin_maps.

(** ** JavaScript strings *)

Module JsString.

(** [s.slice(n)] for [0 <= n]. *)
Fixpoint drop (n : nat) (s : string) : string :=
  match n, s with
  | O, _ => s
  | S n', String _ r => drop n' r
  | S _, EmptyString => EmptyString
  end.

(** [s.substring(0, n)]; a negative bound is clamped to [0] by
    JavaScript, which the truncated subtraction of [nat] reproduces at
    the call sites. *)
Fixpoint take (n : nat) (s : string) : string :=
  match n, s with
  | O, _ => EmptyString
  | S n', String c r => String c (take n' r)
  | S _, EmptyString => EmptyString
  end.

(** [s.replace(pat, rep)] with a string pattern: only the FIRST
    occurrence of [pat] is replaced. *)
Fixpoint replace (pat rep s : string) : string :=
  if String.prefix pat s then rep +:+ drop (String.length pat) s
  else match s with
       | EmptyString => EmptyString
       | String c r => String c (replace pat rep r)
       end.

(** [s.split("/")]. *)
Fixpoint split_sep (s : string) : list string :=
  match s with
  | EmptyString => [EmptyString]
  | String c r =>
      if Ascii.eqb c "/" then EmptyString :: split_sep r
      else match split_sep r with
           | h :: t => String c h :: t
           | [] => [String c EmptyString]
           end
  end.

(** [l.join(sep)]. *)
Definition join (sep : string) (l : list string) : string :=
  String.concat sep l.

(** [s.endsWith(suf)]. *)
Definition endsWith (s suf : string) : bool :=
  String.eqb (drop (String.length s - String.length suf) s) suf.

(** The last character of a string, if any. *)
Fixpoint last_char (s : string) : option ascii :=
  match s with
  | EmptyString => None
  | String c EmptyString => Some c
  | String _ r => last_char r
  end.

End JsString.

(** ** Node's [path] module (POSIX flavour, [path.sep = "/"]) *)

Module Path.

Definition sep : string := "/".

Definition is_absolute (p : string) : bool :=
  match p with
  | String c _ => Ascii.eqb c "/"
  | EmptyString => false
  end.

Definition has_trailing_sep (p : string) : bool :=
  match JsString.last_char p with
  | Some c => Ascii.eqb c "/"
  | None => false
  end.

(** One step of [normalizeString]: [acc] holds the segments kept so
    far, most recent first. *)
Definition norm_step (allowAboveRoot : bool) (acc : list string) (s : string)
  : list string :=
  if String.eqb s "" || String.eqb s "." then acc
  else if String.eqb s ".." then
    match acc with
    | top :: acc' =>
        if String.eqb top ".." then
          (if allowAboveRoot then ".." :: acc else acc)
        else acc'
    | [] => if allowAboveRoot then [".."] else []
    end
  else s :: acc.

Definition normalize_segs (allowAboveRoot : bool) (segs : list string)
  : list string :=
  rev (fold_left (norm_step allowAboveRoot) segs []).

(** [path.normalize]. *)
Definition normalize (p : string) : string :=
  if String.eqb p "" then "."
  else
    let abs := is_absolute p in
    let body :=
      JsString.join "/" (normalize_segs (negb abs) (JsString.split_sep p)) in
    if String.eqb body "" then
      (if abs then "/" else if has_trailing_sep p then "./" else ".")
    else
      (if abs then "/" else "") +:+ body
      +:+ (if has_trailing_sep p then "/" else "").

(** [path.join(...args)]: the non-empty arguments are glued with ["/"]
    and the result is normalised. *)
Definition join (args : list string) : string :=
  match filter (λ a, a ≠ "") args with
  | [] => "."
  | parts => normalize (JsString.join "/" parts)
  end.

(** The segments of [path.resolve(p)] for the working directory [cwd]
    (an absolute path). *)
Definition resolve_segs (cwd p : string) : list string :=
  normalize_segs false
    (JsString.split_sep (if is_absolute p then p else cwd +:+ "/" +:+ p)).

Fixpoint drop_common (a b : list string) : list string * list string :=
  match a, b with
  | x :: a', y :: b' => if String.eqb x y then drop_common a' b' else (a, b)
  | _, _ => (a, b)
  end.

(** [path.relative(from, to)]: both paths are resolved, their common
    leading segments dropped, one [".."] emitted for every segment left of
    [from], followed by what is left of [to]. *)
Definition relative (cwd from to : string) : string :=
  if String.eqb from to then ""
  else
    let '(f, t) := drop_common (resolve_segs cwd from) (resolve_segs cwd to) in
    JsString.join "/" (replicate (length f) ".." ++ t).

(** The part of [p] that [path.extname] looks at: the last segment,
    trailing separators ignored. *)
Definition base_part (p : string) : string :=
  match filter (λ s, s ≠ "") (rev (JsString.split_sep p)) with
  | b :: _ => b
  | [] => ""
  end.

Fixpoint from_last_dot (s : string) : option string :=
  match s with
  | EmptyString => None
  | String c r =>
      match from_last_dot r with
      | Some e => Some e
      | None => if Ascii.eqb c "." then Some s else None
      end
  end.

(** [path.extname(p)]: from the last ["."] of the base name to its end;
    empty when there is no dot, when the only dot leads the base name,
    and for [".."]. *)
Definition extname (p : string) : string :=
  let b := base_part p in
  match from_last_dot b with
  | None => ""
  | Some e =>
      if (String.length e =? String.length b)%nat || String.eqb b ".."
      then "" else e
  end.

End Path.

(** ** Plain JavaScript objects used as string maps

    The alias table and the asset ledger are flat objects whose values are
    strings.  Only their own properties are stored; what a plain object
    inherits from [Object.prototype] is accounted for in the two
    operations below. *)

Module JsObject.

Abbreviation t := (gmap string string).

(** The property names every plain object inherits. *)
Definition prototype_keys : list string :=
  [ "constructor"; "__defineGetter__"; "__defineSetter__"; "hasOwnProperty";
    "__lookupGetter__"; "__lookupSetter__"; "isPrototypeOf";
    "propertyIsEnumerable"; "toString"; "valueOf"; "__proto__";
    "toLocaleString" ].

(** Truthiness of [o[k]]: an own property is truthy unless it is the
    empty string; a missing one is [undefined] unless the name is
    inherited, in which case it is a function or an object. *)
Definition truthy (o : t) (k : string) : bool :=
  match o !! k with
  | Some v => negb (String.eqb v "")
  | None => bool_decide (k ∈ prototype_keys)
  end.

(** [o[k] = v] for a string [v].  Assigning to ["__proto__"] runs the
    inherited setter, which ignores a string, unless the object has an
    own property of that name. *)
Definition set (o : t) (k v : string) : t :=
  if String.eqb k "__proto__" && bool_decide (o !! k = None) then o
  else <[k:=v]> o.

(** [Object.assign(target, source)]: every own property of [source] is
    assigned to [target]. *)
Definition assign (target source : t) : t :=
  map_fold (λ k v acc, set acc k v) target source.

End JsObject.

(** ** The world outside the build *)

(** What a file holds: the JSON text of a flat object, kept parsed, or
    any other text. *)
Inductive Content :=
| Text (s : string)
| Json (o : gmap string string).

(** The file system: regular files by path; directories are implicit.
    A path is the string handed to the file-system call, which [build.ts]
    always obtains from [path.join] or from a walk; two spellings of one
    file are not identified. *)
Abbreviation FS := (gmap string Content).

Inductive Error :=
| TypeError (what : string)     (* property read on [undefined] *)
| ENOENT (path : string)        (* no such file *)
| SyntaxError (path : string)   (* not JSON *)
| Failure (msg : string).       (* raised by an external collaborator *)

Inductive Kind := Module | Widget.

(** The calls the build makes on the outside world, in the order made.
    The three calls of the transpilation loops carry the loop they are
    made from; a transpile call also records whether it threw. *)
Inductive Event :=
| EvReadConfig (path network : string)
| EvReadJson (path : string)
| EvWalk (dir : string)
| EvUpload (path : string)
| EvWriteJson (path : string)
| EvCopy (from to : string)
| EvReadFile (k : Kind) (path : string)
| EvTranspile (k : Kind) (file : string) (thrown : option Error)
| EvOutputFile (k : Kind) (path : string)
| EvRemove (path : string)
| EvGenerateData (src dest : string).

(** ** Data of the build *)

Record IpfsConfig := {
  uploadApi : option string;
  uploadApiHeaders : option (gmap string string);
  gateway : option string;
}.

Record Accounts := { deploy : option string }.

Record Config := {
  cfg_format : option string;
  cfg_aliases : option (list string);
  cfg_ipfs : option IpfsConfig;
  cfg_accounts : option Accounts;
}.

Record UploadToIPFSOptions := {
  uploadAPI_url : option string;
  uploadAPI_headers : option (gmap string string);
}.

Record EvalCustomSyntaxParams := {
  p_config : Config;
  p_modules : list string;
  p_ipfsMap : gmap string string;
  p_ipfsGateway : option string;
  p_aliases : gmap string string;
}.

Record TranspileOptions := {
  compileTypeScript : bool;
  format : option string;
}.

Record LogSource := { line : option nat; file : option string }.

Record Log := {
  level : string;
  message : string;
  source : option LogSource;
}.

Record Transpiled := { out_code : string; out_logs : list Log }.

(** The external collaborators of the build and the process's working
    directory.  They are not part of [build.ts]; the build is verified for
    every choice of them. *)
Record Env := {
  cwd : string;
  (** [readConfig] once the file has been read: parsing, validation and
      the choice of the network's section. *)
  parseConfig : option Content → string → Error + Config;
  (** the content-store client *)
  publish : string → option Content → UploadToIPFSOptions → Error + string;
  (** the transpiler *)
  transpile : Content → EvalCustomSyntaxParams → TranspileOptions
              → Error + Transpiled;
  (** the metadata generator; it writes [data.json] next to the output
      tree and leaves the output directory alone *)
  metadata : string → string → option string → option Error;
}.

(** ** The effect monad: file-system state, exceptions, call trace *)

Definition M (A : Type) : Type := FS → (Error + A) * FS * list Event.

Definition ret {A} (a : A) : M A := λ fs, (inr a, fs, []).

Definition bind {A B} (m : M A) (f : A → M B) : M B :=
  λ fs,
    match m fs with
    | (inl e, fs1, t1) => (inl e, fs1, t1)
    | (inr a, fs1, t1) =>
        let '(r, fs2, t2) := f a fs1 in (r, fs2, t1 ++ t2)
    end.

Definition throw {A} (e : Error) : M A := λ fs, (inl e, fs, []).

(** [try { m } catch (e) { h e }], also [m.catch(h)] on a promise. *)
Definition tryCatch {A} (m : M A) (h : Error → M A) : M A :=
  λ fs,
    match m fs with
    | (inl e, fs1, t1) =>
        let '(r, fs2, t2) := h e fs1 in (r, fs2, t1 ++ t2)
    | ok => ok
    end.

Declare Scope build_scope.
Delimit Scope build_scope with build.
Notation "'let!' x := m 'in' k" := (bind m (λ x, k))
  (at level 10, x name, m at level 100, k at level 200) : build_scope.
Notation "'let!' ' p := m 'in' k" := (bind m (λ x, match x with p => k end))
  (at level 10, p pattern, m at level 100, k at level 200) : build_scope.
Notation "'do!' m 'in' k" := (bind m (λ _, k))
  (at level 10, m at level 100, k at level 200) : build_scope.
Local Open Scope build_scope.

(** [for (const x of l) { s = body s x }] with the loop's mutable locals
    [s] threaded through. *)
Fixpoint forEach {A S} (l : list A) (s : S) (body : S → A → M S) : M S :=
  match l with
  | [] => ret s
  | x :: r => let! s' := body s x in forEach r s' body
  end.

(** Reading a property of [o], which may be [undefined]. *)
Definition prop {A B} (what : string) (o : option A) (f : A → B) : M B :=
  match o with
  | Some a => ret (f a)
  | None => throw (TypeError what)
  end.

(** ** [@/lib/utils/fs] and the other imports *)

Definition is_under (dir path : string) : bool :=
  String.prefix (dir +:+ "/") path.

(** The files below [dir], in the order the file system lists them. *)
Definition filesUnder (dir : string) (fs : FS) : list string :=
  filter (λ p, is_under dir p = true) (map_to_list fs).*1.

Section Primitives.
Context (E : Env).

(** [readConfig] of [@/lib/config]: the file is read and handed to the
    external parser. *)
Definition readConfig (path network : string) : M Config :=
  λ fs, (parseConfig E (fs !! path) network, fs, [EvReadConfig path network]).

(** Modelled from the spec: [readJson] of [@/lib/utils/fs] is not in the
    sources at hand.  Loading fails on a "missing file" and on a "parse
    error". *)
Definition readJson (path : string) : M (gmap string string) :=
  λ fs,
    (match fs !! path with
     | Some (Json o) => inr o
     | Some (Text _) => inl (SyntaxError path)
     | None => inl (ENOENT path)
     end, fs, [EvReadJson path]).

(** Modelled from the spec: [writeJson] of [@/lib/utils/fs] is not in
    the sources at hand.  It "persists the merged map back to durable
    storage". *)
Definition writeJson (path : string) (o : gmap string string) : M unit :=
  λ fs, (inr tt, <[path := Json o]> fs, [EvWriteJson path]).

(** Modelled from the spec: [copy] of [@/lib/utils/fs] is not in the
    sources at hand.  It "mirrors" a file "into the build's destination
    location". *)
Definition copy (from to : string) : M unit :=
  λ fs,
    match fs !! from with
    | Some c => (inr tt, <[to := c]> fs, [EvCopy from to])
    | None => (inl (ENOENT from), fs, [EvCopy from to])
    end.

(** Modelled from the spec: [readFile] of [@/lib/utils/fs] is not in the
    sources at hand.  It "reads raw content"; [k] records the loop the call
    is made from. *)
Definition readFile (k : Kind) (path : string) : M Content :=
  λ fs,
    (match fs !! path with
     | Some c => inr c
     | None => inl (ENOENT path)
     end, fs, [EvReadFile k path]).

(** Modelled from the spec: [outputFile] of [@/lib/utils/fs] is not in
    the sources at hand.  It "writes the artifact's code to that output
    path". *)
Definition outputFile (k : Kind) (path code : string) : M unit :=
  λ fs, (inr tt, <[path := Text code]> fs, [EvOutputFile k path]).

(** Modelled from the spec: [remove] of [@/lib/utils/fs] is not in the
    sources at hand.  It "deletes" a path, here always the path of a file
    of the snapshot. *)
Definition remove (path : string) : M unit :=
  λ fs, (inr tt, delete path fs, [EvRemove path]).

(** Modelled from the spec: [loopThroughFiles] of [@/lib/utils/fs] is
    not in the sources at hand.  It "recursively enumerates all files
    under" a root and hands each file's path to the callback; the
    callbacks of [build.ts] only collect what they are handed, so the
    walk is modelled as returning the list. *)
Definition loopThroughFiles (dir : string) : M (list string) :=
  λ fs, (inr (filesUnder dir fs), fs, [EvWalk dir]).

(** [uploadToIPFS] of [@/lib/ipfs]: the content-store client, called on
    the file at [path]. *)
Definition uploadToIPFS (path : string) (options : UploadToIPFSOptions)
  : M string :=
  λ fs, (publish E path (fs !! path) options, fs, [EvUpload path]).

(** [transpileJS] of [@/lib/parser]: the external transpiler; [k] and
    [file] record which unit the call is made for. *)
Definition transpileJS (k : Kind) (file : string) (content : Content)
    (params : EvalCustomSyntaxParams) (options : TranspileOptions)
  : M Transpiled :=
  λ fs,
    match transpile E content params options with
    | inl e => (inl e, fs, [EvTranspile k file (Some e)])
    | inr out => (inr out, fs, [EvTranspile k file None])
    end.

(** [generateData] of [@/lib/data]: the external metadata generator. *)
Definition generateData (src dest : string) (account : option string)
  : M unit :=
  λ fs,
    (match metadata E src dest account with
     | Some e => inl e
     | None => inr tt
     end, fs, [EvGenerateData src dest]).

(** ** [updateIpfs] (build.ts, lines 175-210) *)

(** Lines 189-193: one turn of the upload loop; [ipfsUploads] is the
    loop's state. *)
Definition uploadIfNew (pwd : string) (options : UploadToIPFSOptions)
    (ipfsMap ipfsUploads : gmap string string) (file : string)
  : M (gmap string string) :=
  if negb (JsObject.truthy ipfsMap file) then
    (* upload *)
    let! cid := uploadToIPFS (Path.join [pwd; "ipfs"; file]) options in
    ret (JsObject.set ipfsUploads file cid)
  else ret ipfsUploads.

Definition updateIpfs (pwd dest : string) (options : UploadToIPFSOptions)
  : M (gmap string string) :=
  let! ipfsMap := tryCatch (readJson (Path.join [pwd; "ipfs.json"]))
                           (λ _, ret ∅) in
  (* 2. read all files in /ipfs/ *)
  let! found := loopThroughFiles (Path.join [pwd; "ipfs"]) in
  let ipfsFiles :=
    map (Path.relative (cwd E) (Path.join [pwd; "ipfs"])) found in
  (* 3. upload the changed files to ipfs *)
  let! ipfsUploads :=
    forEach ipfsFiles (∅ : gmap string string)
      (uploadIfNew pwd options ipfsMap) in
  (* 4. update ipfs.json *)
  let newIpfsMap :=
    map_fold (λ file cid acc, JsObject.set acc file cid) ipfsMap ipfsUploads in
  do! (if (0 <? size ipfsUploads)%nat then
         do! writeJson (Path.join [pwd; "ipfs.json"]) newIpfsMap in
         copy (Path.join [pwd; "ipfs.json"]) (Path.join [dest; "ipfs.json"])
       else ret tt) in
  ret newIpfsMap.

End Primitives.

(** ** [buildApp] (build.ts, lines 18-173)

    The body of [buildApp] is cut into its blocks; [buildApp] below runs
    them in the order of the source.  Progress messages ([log.loading],
    [log.wait], [log.send]) change nothing the build computes and are left
    out. *)

(** The locals of [buildApp] that are fixed once transpilation starts. *)
Record BuildPlan := {
  plan_config : Config;
  plan_params : EvalCustomSyntaxParams;
  plan_modules : list string;
  plan_widgets : list string;
  plan_original_build_files : list string;
}.

Section Build.
Context (E : Env).

(** Line 28: [config?.aliases || [path.join(src, "aliases.json")]]; an
    array, even an empty one, is truthy. *)
Definition aliasSources (config : option Config) (src : string)
  : list string :=
  match config ≫= cfg_aliases with
  | Some l => l
  | None => [Path.join [src; "aliases.json"]]
  end.

(** Lines 29-33. *)
Definition loadAliases (src : string) (aliasesSrcs : list string)
  : M (gmap string string) :=
  forEach aliasesSrcs (∅ : gmap string string) (λ aliases aliasesSrc,
    let! aliasesData :=
      tryCatch (readJson (Path.join [src; aliasesSrc])) (λ _, ret ∅) in
    ret (JsObject.assign aliases aliasesData)).

(** Lines 47-48 and 55-56: the extensions of source units. *)
Definition isSourceFile (file : string) : bool :=
  let ext := Path.extname file in
  String.eqb ext ".js" || String.eqb ext ".jsx"
  || String.eqb ext ".ts" || String.eqb ext ".tsx".

(** Line 63: the logical name of a module. *)
Definition moduleName (src file : string) : string :=
  Path.relative (cwd E) (Path.join [src; "module"])
    (JsString.replace (Path.extname file) "" file).

(** Lines 98-100: the file name of a module's artifact. *)
Definition moduleOutputName (src file : string) : string :=
  let new_file_name :=
    JsString.replace Path.sep "."
      (Path.relative (cwd E) (Path.join [src; "module"]) file) in
  let new_file_name :=
    JsString.take
      (String.length new_file_name - String.length (Path.extname file))
      new_file_name in
  new_file_name +:+ ".module.js".

(** Lines 137-139: the file name of a widget's artifact. *)
Definition widgetOutputName (src file : string) : string :=
  let new_file_name :=
    JsString.replace Path.sep "."
      (Path.relative (cwd E) (Path.join [src; "widget"]) file) in
  let new_file_name :=
    JsString.join "."
      (JsString.split_sep
         (JsString.take
            (String.length new_file_name - String.length (Path.extname file))
            new_file_name)) in
  new_file_name +:+ ".jsx".

(** Lines 102 and 141. *)
Definition outputPath (dest new_file_name : string) : string :=
  Path.join [dest; "src"; "widget"; new_file_name].

Definition moduleOutputPath (src dest file : string) : string :=
  outputPath dest (moduleOutputName src file).

Definition widgetOutputPath (src dest file : string) : string :=
  outputPath dest (widgetOutputName src file).

(** Lines 86-94 and 123-131. *)
Definition tagLogs (src file : string) (new_logs : list Log) : list Log :=
  map (λ v, {| level := level v;
               message := message v;
               source := Some {| line := source v ≫= line;
                                 file := Some (Path.relative (cwd E)
                                                 (Path.join [src]) file) |} |})
      new_logs.

Definition transpileOptions (config : Config) (file : string)
  : TranspileOptions :=
  {| compileTypeScript :=
       JsString.endsWith file ".ts" || JsString.endsWith file ".tsx";
     format := cfg_format config |}.

(** Lines 18-75: configuration, aliases, assets, catalog, context and the
    snapshot of the output directory. *)
Definition prepare (src dest network : string) : M BuildPlan :=
  let! config :=
    tryCatch (let! c := readConfig E (Path.join [src; "bos.config.json"])
                          network in ret (Some c))
             (λ _, ret None) in
  let aliasesSrcs := aliasSources config src in
  let! aliases := loadAliases src aliasesSrcs in
  match config with
  | None => throw (TypeError "ipfs")     (* line 37: [config] is undefined *)
  | Some config =>
      let! url := prop "uploadApi" (cfg_ipfs config) uploadApi in
      let! headers :=
        prop "uploadApiHeaders" (cfg_ipfs config) uploadApiHeaders in
      let! ipfsMap :=
        updateIpfs E src dest
          {| uploadAPI_url := url; uploadAPI_headers := headers |} in
      (* we identify all the modules *)
      let! found := loopThroughFiles (Path.join [src; "module"]) in
      let modules := filter (λ f, isSourceFile f = true) found in
      let! found := loopThroughFiles (Path.join [src; "widget"]) in
      let widgets := filter (λ f, isSourceFile f = true) found in
      let! ipfsGateway := prop "gateway" (cfg_ipfs config) gateway in
      let params :=
        {| p_config := config;
           p_modules := map (moduleName src) modules;
           p_ipfsMap := ipfsMap;
           p_ipfsGateway := ipfsGateway;
           p_aliases := aliases |} in
      (* we need to keep track of the original build files *)
      let! original_build_files :=
        loopThroughFiles (Path.join [dest; "src"; "widget"]) in
      ret {| plan_config := config;
             plan_params := params;
             plan_modules := modules;
             plan_widgets := widgets;
             plan_original_build_files := original_build_files |}
  end.

(** Lines 80-106: one turn of the module loop; the locals [logs] and
    [new_build_files] are the loop's state. *)
Definition transpileModule (src dest : string) (plan : BuildPlan)
    (st : list Log * list string) (file : string)
  : M (list Log * list string) :=
  let '(logs, new_build_files) := st in
  let! content := readFile Module file in
  let! new_file :=
    transpileJS E Module file content (plan_params plan)
      (transpileOptions (plan_config plan) file) in
  let new_logs := tagLogs src file (out_logs new_file) in
  let logs := logs ++ new_logs in
  (* write to dest *)
  let new_file_path := moduleOutputPath src dest file in
  let new_build_files := new_build_files ++ [new_file_path] in
  do! outputFile Module new_file_path (out_code new_file) in
  ret (logs, new_build_files).

(** Lines 117-145: one turn of the widget loop. *)
Definition transpileWidget (src dest : string) (plan : BuildPlan)
    (st : list Log * list string) (file : string)
  : M (list Log * list string) :=
  let '(logs, new_build_files) := st in
  let! content := readFile Widget file in
  let! new_file :=
    transpileJS E Widget file content (plan_params plan)
      (transpileOptions (plan_config plan) file) in
  let new_logs := tagLogs src file (out_logs new_file) in
  let logs := logs ++ new_logs in
  (* write to dest *)
  let new_file_path := widgetOutputPath src dest file in
  let new_build_files := new_build_files ++ [new_file_path] in
  do! outputFile Widget new_file_path (out_code new_file) in
  ret (logs, new_build_files).

(** Lines 153-158. *)
Definition reconcile (original_build_files new_build_files : list string)
  : M unit :=
  forEach original_build_files tt (λ _ file,
    if bool_decide (file ∈ new_build_files) then ret tt
    else remove file).

(** Lines 77-173, given the locals set up by [prepare]. *)
Definition transpileAndReconcile (src dest : string) (plan : BuildPlan)
  : M (list Log) :=
  (* module transpilation *)
  let! st :=
    tryCatch (forEach (plan_modules plan) ([], [])
                (transpileModule src dest plan))
             (λ e, throw e) in
  (* widget transpilation *)
  let! '(logs, new_build_files) :=
    tryCatch (forEach (plan_widgets plan) st
                (transpileWidget src dest plan))
             (λ e, throw e) in
  do! reconcile (plan_original_build_files plan) new_build_files in
  let! account := prop "deploy" (cfg_accounts (plan_config plan)) deploy in
  do! generateData E src dest account in
  ret logs.

(** [buildApp(src, dest, network)]; the result is the [logs] field of
    the object the source returns.  The default ["mainnet"] of [network]
    is for the caller to pass. *)
Definition buildApp (src dest network : string) : M (list Log) :=
  let! plan := prepare src dest network in
  transpileAndReconcile src dest plan.

End Build.

(** * Vocabulary of the properties *)

(** What one alias source contributes: the object in the file, or the
    empty object when the file is missing or is not JSON. *)
Definition aliasesData (src : string) (fs : FS) (aliasesSrc : string)
  : gmap string string :=
  match fs !! Path.join [src; aliasesSrc] with
  | Some (Json o) => o
  | _ => ∅
  end.

(** The left-to-right merge of a list of alias objects. *)
Definition mergeAliases (l : list (gmap string string)) : gmap string string :=
  fold_left JsObject.assign l ∅.

(** The calls that publish, transpile, write, delete or generate; reads
    of configuration, JSON files, directories and source files are not
    among them. *)
Definition side_effect (ev : Event) : bool :=
  match ev with
  | EvReadConfig _ _ | EvReadJson _ | EvWalk _ | EvReadFile _ _ => false
  | EvUpload _ | EvWriteJson _ | EvCopy _ _ | EvTranspile _ _ _
  | EvOutputFile _ _ | EvRemove _ | EvGenerateData _ _ => true
  end.

(** Example environments and file systems used to exercise the theorems. *)
Module Demo.

Definition ipfsConfig : IpfsConfig :=
  {| uploadApi := Some "https://ipfs.example/add";
     uploadApiHeaders := None;
     gateway := Some "https://ipfs.example/ipfs" |}.

Definition theConfig : Config :=
  {| cfg_format := None;
     cfg_aliases := None;
     cfg_ipfs := Some ipfsConfig;
     cfg_accounts := Some {| deploy := Some "me.near" |} |}.

(** The configuration loads when the file is there; the store names
    content after its path; only the text ["bad"] fails to transpile. *)
Definition env : Env :=
  {| cwd := "/w";
     parseConfig := λ c _,
       match c with
       | Some _ => inr theConfig
       | None => inl (Failure "cannot read config")
       end;
     publish := λ p _ _, inr ("cid:" +:+ p);
     transpile := λ c _ _,
       match c with
       | Text "bad" => inl (Failure "syntax error")
       | Text s => inr {| out_code := s; out_logs := [] |}
       | Json _ => inr {| out_code := "{}"; out_logs := [] |}
       end;
     metadata := λ _ _ _, None |}.

(** The same, with a content store that answers with the empty string. *)
Definition envEmptyCid : Env :=
  {| cwd := cwd env;
     parseConfig := parseConfig env;
     publish := λ _ _ _, inr "";
     transpile := transpile env;
     metadata := metadata env |}.

(** The upload options [buildApp] derives from [theConfig]. *)
Definition options : UploadToIPFSOptions :=
  {| uploadAPI_url := uploadApi ipfsConfig;
     uploadAPI_headers := uploadApiHeaders ipfsConfig |}.

(** A file system from a listing. *)
Definition files (l : list (string * Content)) : FS := list_to_map l.

(** Whether a run returned, and the value it returned ([d] if it threw). *)
Definition succeeded {A} (run : (Error + A) * FS * list Event) : bool :=
  match run.1.1 with
  | inr _ => true
  | inl _ => false
  end.

Definition okOr {A} (d : A) (run : (Error + A) * FS * list Event) : A :=
  match run.1.1 with
  | inr a => a
  | inl _ => d
  end.

(** A plan to fall back on. *)
Definition noPlan : BuildPlan :=
  {| plan_config := theConfig;
     plan_params := {| p_config := theConfig;
                       p_modules := [];
                       p_ipfsMap := ∅;
                       p_ipfsGateway := None;
                       p_aliases := ∅ |};
     plan_modules := [];
     plan_widgets := [];
     plan_original_build_files := [] |}.

End Demo.

(** The path line 31 reads for the default source of line 28. *)
Definition defaultAliasPath (src : string) : string :=
  Path.join [src; Path.join [src; "aliases.json"]].

(** Whether a name still holds a path separator. *)
Fixpoint has_sep (s : string) : bool :=
  match s with
  | EmptyString => false
  | String c r => Ascii.eqb c "/" || has_sep r
  end.

(** The ledger [updateIpfs] starts from: the object in [ipfs.json], or
    the empty object when the file is missing or is not JSON. *)
Definition loadedLedger (pwd : string) (fs : FS) : gmap string string :=
  match fs !! Path.join [pwd; "ipfs.json"] with
  | Some (Json o) => o
  | _ => ∅
  end.

(** The enumerated asset paths, relative to the asset root. *)
Definition assetPaths (E : Env) (pwd : string) (fs : FS) : list string :=
  map (Path.relative (cwd E) (Path.join [pwd; "ipfs"]))
      (filesUnder (Path.join [pwd; "ipfs"]) fs).

(** Calls of the content store. *)
Definition is_upload (ev : Event) : bool :=
  match ev with EvUpload _ => true | _ => false end.

(** [s] ends with [suf]. *)
Definition ends_with (suf s : string) : Prop := ∃ pre, s = pre +:+ suf.

(** The loop an event comes from, if it comes from one. *)
Definition event_kind (ev : Event) : option Kind :=
  match ev with
  | EvReadFile k _ | EvTranspile k _ _ | EvOutputFile k _ => Some k
  | _ => None
  end.

(** The shape the two loop bodies share: they differ in the loop they
    belong to and in how they name the artifact. *)
Definition transpileUnit (E : Env) (k : Kind) (outp : string → string)
    (src : string) (plan : BuildPlan)
    (st : list Log * list string) (file : string)
  : M (list Log * list string) :=
  let '(logs, new_build_files) := st in
  let! content := readFile k file in
  let! new_file :=
    transpileJS E k file content (plan_params plan)
      (transpileOptions (plan_config plan) file) in
  do! outputFile k (outp file) (out_code new_file) in
  ret (logs ++ tagLogs E src file (out_logs new_file),
       new_build_files ++ [outp file]).

(** A failed transpile call in a run's trace is the last call of the run
    and its error is the run's result. *)
Definition fail_fast {A} (run : (Error + A) * FS * list Event) : Prop :=
  ∀ t1 k f e t2,
    run.2 = t1 ++ EvTranspile k f (Some e) :: t2 → t2 = [] ∧ run.1.1 = inl e.

(** Transpile calls that threw. *)
Definition failed_transpile (ev : Event) : bool :=
  match ev with EvTranspile _ _ (Some _) => true | _ => false end.

(** The snapshot paths the new build did not produce. *)
Definition stale (original_build_files new_build_files : list string)
  : list string :=
  filter (λ p, p ∉ new_build_files) original_build_files.

(** The file system once they are removed. *)
Definition reconciled (original_build_files new_build_files : list string)
    (fs : FS) : FS :=
  fold_left (λ fs p, delete p fs) (stale original_build_files new_build_files) fs.

(** The configuration as line 24 leaves it: [undefined] when loading
    failed. *)
Definition loadedConfig (E : Env) (src network : string) (fs : FS)
  : option Config :=
  match parseConfig E (fs !! Path.join [src; "bos.config.json"]) network with
  | inr c => Some c
  | inl _ => None
  end.

(** The alias table of a build. *)
Definition aliasTable (E : Env) (src network : string) (fs : FS)
  : gmap string string :=
  mergeAliases
    (map (aliasesData src fs) (aliasSources (loadedConfig E src network fs) src)).

(** The source units below a root, in the order the walk hands them
    over. *)
Definition catalog (root : string) (fs : FS) : list string :=
  filter (λ f, isSourceFile f = true) (filesUnder root fs).

(** The calls [prepare] makes. *)
Definition setup_event (ev : Event) : bool :=
  match ev with
  | EvReadConfig _ _ | EvReadJson _ | EvWalk _ | EvUpload _ | EvWriteJson _
  | EvCopy _ _ => true
  | _ => false
  end.

(** The new artifact paths of a build, in the order they are recorded. *)
Definition newArtifacts (E : Env) (src dest : string) (plan : BuildPlan)
  : list string :=
  map (moduleOutputPath E src dest) (plan_modules plan)
  ++ map (widgetOutputPath E src dest) (plan_widgets plan).

(** ** Vocabulary of the further properties *)

(** The asset paths line 189 finds no truthy ledger entry for. *)
Definition unpublished (ledger : gmap string string) (files : list string)
  : list string :=
  filter (λ f, JsObject.truthy ledger f = false) files.

(** The upload calls for a list of asset paths (line 191). *)
Definition uploadCalls (pwd : string) (files : list string) : list Event :=
  map (λ f, EvUpload (Path.join [pwd; "ipfs"; f])) files.

(** The calls that change the file system. *)
Definition writes_disk (ev : Event) : bool :=
  match ev with
  | EvWriteJson _ | EvCopy _ _ | EvOutputFile _ _ | EvRemove _ => true
  | _ => false
  end.

(** The calls of one turn of a transpilation loop that goes through. *)
Definition unitEvents (k : Kind) (outp : string → string) (file : string)
  : list Event :=
  [EvReadFile k file; EvTranspile k file None; EvOutputFile k (outp file)].

(** The root a loop's units are discovered under (lines 46 and 53). *)
Definition kindRoot (src : string) (k : Kind) : string :=
  Path.join [src; match k with Module => "module" | Widget => "widget" end].



(** The calls of the two loops when both complete. *)
Definition unitCalls (E : Env) (src dest : string) (plan : BuildPlan)
  : list Event :=
  flat_map (unitEvents Module (moduleOutputPath E src dest)) (plan_modules plan)
  ++ flat_map (unitEvents Widget (widgetOutputPath E src dest))
       (plan_widgets plan).

(** Further example environments. *)
Module DemoX.

(** A content store that is down for [b.png]. *)
Definition envStoreDown : Env :=
  {| cwd := cwd Demo.env;
     parseConfig := parseConfig Demo.env;
     publish := λ p _ _,
       if String.eqb p "app/ipfs/b.png" then inl (Failure "store down")
       else inr ("cid:" +:+ p);
     transpile := transpile Demo.env;
     metadata := metadata Demo.env |}.



(** A metadata generator that fails. *)
Definition envNoMetadata : Env :=
  {| cwd := cwd Demo.env;
     parseConfig := parseConfig Demo.env;
     publish := publish Demo.env;
     transpile := transpile Demo.env;
     metadata := λ _ _ _, Some (Failure "cannot write data.json") |}.


End DemoX.

(** * Properties *)

(** ** Running monadic code *)

Lemma run_triple {A} (run : (Error + A) * FS * list Event) :
  run = (run.1.1, run.1.2, run.2).
Proof. by destruct run as [[? ?] ?]. Qed.

Lemma run_eta {A} (d : A) (run : (Error + A) * FS * list Event) :
  Demo.succeeded run = true → run = (inr (Demo.okOr d run), run.1.2, run.2).
Proof. by destruct run as [[[e|a] fs] tr]. Qed.

Lemma bind_run {A B} (m : M A) (f : A → M B) fs r fs' tr :
  bind m f fs = (r, fs', tr) →
  (∃ e, m fs = (inl e, fs', tr) ∧ r = inl e)
  ∨ (∃ a fs1 t1 t2,
        m fs = (inr a, fs1, t1) ∧ f a fs1 = (r, fs', t2) ∧ tr = t1 ++ t2).
Proof.
  unfold bind. destruct (m fs) as [[[e|a] fs1] t1].
  - intros [= <- <- <-]. left. by exists e.
  - destruct (f a fs1) as [[r2 fs2] t2] eqn:Hf. intros [= <- <- <-].
    right. by exists a, fs1, t1, t2.
Qed.

Lemma bind_ok {A B} (m : M A) (f : A → M B) fs a fs1 t1 :
  m fs = (inr a, fs1, t1) →
  bind m f fs = (let '(r, fs2, t2) := f a fs1 in (r, fs2, t1 ++ t2)).
Proof. unfold bind. by intros ->. Qed.

Lemma bind_fail {A B} (m : M A) (f : A → M B) fs e fs1 t1 :
  m fs = (inl e, fs1, t1) → bind m f fs = (inl e, fs1, t1).
Proof. unfold bind. by intros ->. Qed.

Lemma tryCatch_rethrow {A} (m : M A) fs :
  tryCatch m (λ e, throw e) fs = m fs.
Proof.
  unfold tryCatch, throw. destruct (m fs) as [[[e|a] fs1] t1]; [|done].
  by rewrite app_nil_r.
Qed.

(** Closes a goal [ev ∉ tr] for an explicit trace [tr] whose events all
    differ from [ev] by their constructor. *)
Ltac trace_absurd H :=
  rewrite ?elem_of_cons, ?elem_of_nil in H;
  repeat (destruct H as [H|H]; try discriminate H); done.

Ltac trace_absent :=
  intros; let H := fresh in intros H; trace_absurd H.

(** ** Aliases (lines 28-33) *)

Lemma readJson_or_empty path fs :
  tryCatch (readJson path) (λ _, ret ∅) fs
  = (inr (match fs !! path with Some (Json o) => o | _ => ∅ end),
     fs, [EvReadJson path]).
Proof.
  unfold tryCatch, readJson, ret.
  destruct (fs !! path) as [[?|?]|]; done.
Qed.

Lemma loadAliases_from src aliasesSrcs acc fs :
  forEach aliasesSrcs acc (λ aliases aliasesSrc,
      let! data :=
        tryCatch (readJson (Path.join [src; aliasesSrc])) (λ _, ret ∅) in
      ret (JsObject.assign aliases data)) fs
  = (inr (fold_left JsObject.assign (map (aliasesData src fs) aliasesSrcs) acc),
     fs, map (λ a, EvReadJson (Path.join [src; a])) aliasesSrcs).
Proof.
  revert acc. induction aliasesSrcs as [|a l IH]; intros acc; [done|].
  cbn [forEach map fold_left].
  erewrite bind_ok; last first.
  { erewrite bind_ok by apply readJson_or_empty. reflexivity. }
  rewrite IH. done.
Qed.

Lemma loadAliases_run src aliasesSrcs fs :
  loadAliases src aliasesSrcs fs
  = (inr (mergeAliases (map (aliasesData src fs) aliasesSrcs)),
     fs, map (λ a, EvReadJson (Path.join [src; a])) aliasesSrcs).
Proof. apply loadAliases_from. Qed.

(** ** Configuration failure (lines 24-40) *)

Lemma readConfig_failed E path network fs e :
  parseConfig E (fs !! path) network = inl e →
  tryCatch (let! c := readConfig E path network in ret (Some c))
           (λ _, ret None) fs
  = (inr None, fs, [EvReadConfig path network]).
Proof.
  intros He. unfold tryCatch, bind, readConfig, ret. by rewrite He.
Qed.

Lemma prepare_config_failed E src dest network fs e :
  parseConfig E (fs !! Path.join [src; "bos.config.json"]) network = inl e →
  prepare E src dest network fs
  = (inl (TypeError "ipfs"), fs,
     [EvReadConfig (Path.join [src; "bos.config.json"]) network;
      EvReadJson (Path.join [src; Path.join [src; "aliases.json"]])]).
Proof.
  intros He. unfold prepare.
  erewrite bind_ok by (by eapply readConfig_failed).
  erewrite bind_ok by apply loadAliases_run.
  reflexivity.
Qed.

(** C1: when the configuration cannot be loaded the build raises an
    error and returns no result; it has published no asset, called the
    transpiler on nothing and written no file.  All it did was to try to
    read the configuration and the default alias file, and the file system
    is as it was. *)
Theorem buildApp_config_failure E src dest network fs e :
  parseConfig E (fs !! Path.join [src; "bos.config.json"]) network = inl e →
  ∃ err tr,
    buildApp E src dest network fs = (inl err, fs, tr)
    ∧ (∀ p, EvUpload p ∉ tr)
    ∧ (∀ k f o, EvTranspile k f o ∉ tr)
    ∧ (∀ k p, EvOutputFile k p ∉ tr)
    ∧ Forall (λ ev, side_effect ev = false) tr.
Proof.
  intros He. eexists _, _. split.
  { unfold buildApp. erewrite bind_fail; [reflexivity|].
    by eapply prepare_config_failed. }
  repeat split; try by trace_absent.
  by repeat constructor.
Qed.

Lemma buildApp_config_failure_witness :
  ∃ err tr,
    buildApp Demo.env "app" "out" "mainnet"
      (Demo.files [("app/module/a.ts", Text "1")])
    = (inl err, Demo.files [("app/module/a.ts", Text "1")], tr)
    ∧ (∀ p, EvUpload p ∉ tr)
    ∧ (∀ k f o, EvTranspile k f o ∉ tr)
    ∧ (∀ k p, EvOutputFile k p ∉ tr)
    ∧ Forall (λ ev, side_effect ev = false) tr.
Proof.
  apply (buildApp_config_failure Demo.env "app" "out" "mainnet"
           (Demo.files [("app/module/a.ts", Text "1")])
           (Failure "cannot read config")).
  vm_compute. reflexivity.
Defined.

(** ** Objects: assignment *)

Lemma set_lookup (o : gmap string string) k v j :
  JsObject.set o k v !! j
  = if decide (k = j) then
      (if String.eqb k "__proto__" && bool_decide (o !! k = None)
       then None else Some v)
    else o !! j.
Proof.
  unfold JsObject.set.
  destruct (String.eqb k "__proto__" && bool_decide (o !! k = None)) eqn:Hc.
  - destruct (decide (k = j)) as [<-|]; [|done].
    apply andb_true_iff in Hc as [_ Hn]. by apply bool_decide_eq_true in Hn.
  - destruct (decide (k = j)) as [<-|].
    + by rewrite lookup_insert_eq.
    + by rewrite lookup_insert_ne.
Qed.

Lemma assign_lookup (target source : gmap string string) k :
  JsObject.assign target source !! k
  = match source !! k with
    | Some v =>
        if String.eqb k "__proto__" && bool_decide (target !! k = None)
        then None else Some v
    | None => target !! k
    end.
Proof.
  unfold JsObject.assign. revert k.
  apply (map_fold_weak_ind
           (λ r (m : gmap string string), ∀ k,
              r !! k = match m !! k with
                       | Some v =>
                           if String.eqb k "__proto__"
                              && bool_decide (target !! k = None)
                           then None else Some v
                       | None => target !! k
                       end)).
  - intros k. by rewrite lookup_empty.
  - intros i x m r Hi IH k. rewrite set_lookup.
    destruct (decide (i = k)) as [<-|Hne].
    + rewrite lookup_insert_eq, IH, Hi. done.
    + by rewrite lookup_insert_ne, IH.
Qed.

Lemma assign_lookup_plain (target source : gmap string string) k :
  k ≠ "__proto__" →
  JsObject.assign target source !! k
  = match source !! k with Some v => Some v | None => target !! k end.
Proof.
  intros Hk. rewrite assign_lookup.
  apply String.eqb_neq in Hk. by rewrite Hk.
Qed.

Lemma assign_empty_r (target : gmap string string) :
  JsObject.assign target ∅ = target.
Proof. apply map_eq. intros k. by rewrite assign_lookup, lookup_empty. Qed.

Lemma mergeAliases_snoc l o :
  mergeAliases (l ++ [o]) = JsObject.assign (mergeAliases l) o.
Proof. unfold mergeAliases. by rewrite fold_left_app. Qed.

Lemma mergeAliases_skip_empty l1 l2 :
  mergeAliases (l1 ++ ∅ :: l2) = mergeAliases (l1 ++ l2).
Proof.
  unfold mergeAliases. rewrite !fold_left_app. simpl.
  by rewrite assign_empty_r.
Qed.

(** C7: the alias table is the left-to-right merge of the alias sources:
    the loop never throws and leaves the file system alone; a source that
    cannot be read counts as the empty object, which changes nothing; a
    key already present is overwritten by a later source that has it, the
    latest source that has a key decides its value, and keys a source does
    not mention keep their value; merging [{a:1}] and [{a:2, b:3}] gives
    [{a:2, b:3}]. *)
Theorem aliases_merge_in_order src aliasesSrcs fs :
  loadAliases src aliasesSrcs fs
  = (inr (mergeAliases (map (aliasesData src fs) aliasesSrcs)), fs,
     map (λ a, EvReadJson (Path.join [src; a])) aliasesSrcs)
  ∧ (∀ a, (∀ o, fs !! Path.join [src; a] ≠ Some (Json o)) →
          aliasesData src fs a = ∅)
  ∧ (∀ l1 l2, mergeAliases (l1 ++ ∅ :: l2) = mergeAliases (l1 ++ l2))
  ∧ (∀ l o k v v', mergeAliases l !! k = Some v → o !! k = Some v' →
                   mergeAliases (l ++ [o]) !! k = Some v')
  ∧ (∀ l o k v, k ≠ "__proto__" → o !! k = Some v →
                mergeAliases (l ++ [o]) !! k = Some v)
  ∧ (∀ l o k, o !! k = None →
              mergeAliases (l ++ [o]) !! k = mergeAliases l !! k)
  ∧ mergeAliases [ {["a" := "1"]}; {["a" := "2"; "b" := "3"]} ]
    = {["a" := "2"; "b" := "3"]}.
Proof.
  split; [apply loadAliases_run|].
  split.
  { intros a Ha. unfold aliasesData.
    destruct (fs !! Path.join [src; a]) as [[?|o]|]; [done| |done].
    by destruct (Ha o). }
  split; [apply mergeAliases_skip_empty|].
  split.
  { intros l o k v v' Hl Ho.
    rewrite mergeAliases_snoc, assign_lookup, Ho, Hl.
    by rewrite bool_decide_eq_false_2, andb_false_r. }
  split.
  { intros l o k v Hk Ho.
    by rewrite mergeAliases_snoc, assign_lookup_plain, Ho. }
  split.
  { intros l o k Ho. by rewrite mergeAliases_snoc, assign_lookup, Ho. }
  vm_compute; reflexivity.
Qed.

(** The specification's example run through the loop itself, with a
    third source that does not exist. *)
Lemma aliases_merge_in_order_witness :
  let fs := Demo.files [ ("app/one.json", Json {["a" := "1"]});
                         ("app/two.json", Json {["a" := "2"; "b" := "3"]}) ] in
  let run := loadAliases "app" ["one.json"; "missing.json"; "two.json"] fs in
  Demo.succeeded run = true
  ∧ map_to_list (Demo.okOr ∅ run) = [("a", "2"); ("b", "3")]
  ∧ run.2 = [EvReadJson "app/one.json"; EvReadJson "app/missing.json";
             EvReadJson "app/two.json"]
  ∧ mergeAliases [ {["a" := "1"]}; {["a" := "2"; "b" := "3"]} ] !! "a"
    = Some "2".
Proof.
  intros fs run.
  pose proof (aliases_merge_in_order "app"
                ["one.json"; "missing.json"; "two.json"] fs)
    as (Hrun & _ & _ & _ & Hlast & _ & _).
  fold run in Hrun. rewrite Hrun.
  split; [vm_compute; reflexivity|].
  split; [vm_compute; reflexivity|].
  split; [vm_compute; reflexivity|].
  apply (Hlast [ {["a" := "1"]} ] {["a" := "2"; "b" := "3"]} "a" "2");
      [discriminate|vm_compute; reflexivity].
Defined.

(** ** The default alias source (line 28 with line 31) *)

(** C9, as the code has it: without an alias-source list in the
    configuration (or without a configuration) the one alias file read is
    [join(src, join(src, "aliases.json"))]; the alias table is what that
    file holds, and it is empty whenever nothing readable is at that path,
    whatever is at [join(src, "aliases.json")].  The two paths are the same
    for a source root such as ["."], where the default file is loaded. *)
Theorem default_alias_source config src fs :
  config ≫= cfg_aliases = None →
  ∃ table,
    loadAliases src (aliasSources config src) fs
    = (inr table, fs, [EvReadJson (defaultAliasPath src)])
    ∧ table = JsObject.assign ∅ (match fs !! defaultAliasPath src with
                                 | Some (Json o) => o
                                 | _ => ∅
                                 end)
    ∧ ((∀ o, fs !! defaultAliasPath src ≠ Some (Json o)) → table = ∅).
Proof.
  intros Hc. unfold aliasSources. rewrite Hc.
  eexists. split; [apply loadAliases_run|].
  split; [done|].
  intros Hno. cbn [map]. unfold mergeAliases, aliasesData, defaultAliasPath in *.
  cbn [fold_left].
  destruct (fs !! Path.join [src; Path.join [src; "aliases.json"]])
    as [[?|o]|]; try apply assign_empty_r.
  by destruct (Hno o).
Qed.

Lemma default_alias_source_witness :
  ∃ table,
    loadAliases "app" (aliasSources (Some Demo.theConfig) "app")
      (Demo.files [("app/aliases.json", Json {["a" := "1"]})])
    = (inr table, Demo.files [("app/aliases.json", Json {["a" := "1"]})],
       [EvReadJson "app/app/aliases.json"])
    ∧ table = ∅.
Proof.
  destruct (default_alias_source (Some Demo.theConfig) "app"
              (Demo.files [("app/aliases.json", Json {["a" := "1"]})]))
    as (table & Hrun & _ & Hempty); [reflexivity|].
  exists table. split; [exact Hrun|].
  apply Hempty. intros o. vm_compute. discriminate.
Defined.

(** For the source root ["."] the doubled path is the plain one: with a
    configuration that names no alias sources the default alias file is
    loaded and the alias table of the build context is not empty. *)
Lemma default_alias_source_loaded_from_dot :
  let fs := Demo.files [ ("bos.config.json", Text "{}");
                         ("aliases.json", Json {["a" := "1"]}) ] in
  let prep := prepare Demo.env "." "out" "mainnet" fs in
  defaultAliasPath "." = Path.join ["."; "aliases.json"]
  ∧ cfg_aliases Demo.theConfig = None
  ∧ Demo.succeeded prep = true
  ∧ map_to_list (p_aliases (plan_params (Demo.okOr Demo.noPlan prep)))
    = [("a", "1")].
Proof. vm_compute. repeat split; reflexivity. Qed.

(** ** Output names (lines 98-100 and 137-139) *)

Lemma has_sep_app s1 s2 : has_sep (s1 +:+ s2) = has_sep s1 || has_sep s2.
Proof.
  induction s1 as [|c r IH]; [done|]. simpl. by rewrite IH, orb_assoc.
Qed.

Lemma split_sep_cons s : ∃ h t, JsString.split_sep s = h :: t.
Proof.
  induction s as [|c r (h & t & IH)]; simpl; [by eauto|].
  destruct (Ascii.eqb c "/"); [by eauto|]. rewrite IH. by eauto.
Qed.

Lemma join_cons sep h h' t :
  JsString.join sep (h :: h' :: t) = h +:+ sep +:+ JsString.join sep (h' :: t).
Proof. reflexivity. Qed.

Lemma join_cons_char sep c h t :
  JsString.join sep (String c h :: t) = String c (JsString.join sep (h :: t)).
Proof. destruct t; reflexivity. Qed.

(** [s.split("/").join(".")] leaves no separator. *)
Lemma split_join_flat s :
  has_sep (JsString.join "." (JsString.split_sep s)) = false.
Proof.
  induction s as [|c r IH]; [done|]. simpl.
  destruct (split_sep_cons r) as (h & t & Hr). rewrite Hr in *.
  destruct (Ascii.eqb c "/") eqn:Hc.
  - rewrite join_cons. simpl. exact IH.
  - rewrite join_cons_char. simpl. by rewrite Hc.
Qed.

(** C3: the name of a widget's artifact never holds a separator, and a
    module one directory deep is named as the specification says; a module
    two directories deep keeps its second separator, because
    [replace(path.sep, ".")] at line 98 replaces the first separator only
    and the module loop lacks the [split(path.sep).join(".")] of line
    138. *)
Theorem moduleOutputName_keeps_later_separators :
  (∀ E src file, has_sep (widgetOutputName E src file) = false)
  ∧ widgetOutputName Demo.env "app" "app/widget/x/y.jsx" = "x.y.jsx"
  ∧ widgetOutputName Demo.env "app" "app/widget/a/b/c.tsx" = "a.b.c.jsx"
  ∧ moduleOutputName Demo.env "app" "app/module/foo/bar.ts"
    = "foo.bar.module.js"
  ∧ moduleOutputName Demo.env "app" "app/module/a/b/c.ts" = "a.b/c.module.js"
  ∧ moduleOutputPath Demo.env "app" "out" "app/module/a/b/c.ts"
    = "out/src/widget/a.b/c.module.js".
Proof.
  split.
  { intros E src file. unfold widgetOutputName.
    by rewrite has_sep_app, split_join_flat. }
  repeat split; vm_compute; reflexivity.
Qed.

(** ** The asset ledger ([updateIpfs]) *)

Section UploadLoop.
Context (E : Env) (pwd : string) (options : UploadToIPFSOptions).
Context (ledger : gmap string string).

(** The upload loop leaves the file system alone, makes upload calls
    only, and only for files whose ledger entry is falsy; what it collects
    are such files. *)
Lemma upload_loop_spec files ups fs r fs' tr :
  forEach files ups (uploadIfNew E pwd options ledger) fs = (r, fs', tr) →
  fs' = fs
  ∧ Forall (λ ev, ∃ f, f ∈ files ∧ JsObject.truthy ledger f = false
                       ∧ ev = EvUpload (Path.join [pwd; "ipfs"; f])) tr
  ∧ (∀ ups', r = inr ups' →
       ∀ k, is_Some (ups' !! k) →
            is_Some (ups !! k)
            ∨ (k ∈ files ∧ JsObject.truthy ledger k = false)).
Proof.
  revert ups fs r fs' tr.
  induction files as [|f files IH]; intros ups fs r fs' tr Hrun.
  { injection Hrun as <- <- <-. repeat split; [constructor|].
    intros ? [= <-]. by left. }
  cbn [forEach] in Hrun. apply bind_run in Hrun.
  unfold uploadIfNew at 1 2 in Hrun.
  destruct (JsObject.truthy ledger f) eqn:Hf; simpl in Hrun.
  - destruct Hrun as [(e & [=] & _)|(a & fs1 & t1 & t2 & [= <- <- <-] & Hrest & ->)].
    apply IH in Hrest as (-> & Htr & Hups). repeat split.
    + eapply Forall_impl; [exact Htr|]. intros ev (g & ? & ? & ?).
      exists g. by rewrite elem_of_cons; auto.
    + intros ups' Hr k Hk. destruct (Hups ups' Hr k Hk) as [?|[? ?]]; [by left|].
      right. by rewrite elem_of_cons; auto.
  - unfold bind, uploadToIPFS, ret in Hrun.
    destruct (publish E (Path.join [pwd; "ipfs"; f])
                (fs !! Path.join [pwd; "ipfs"; f]) options) as [e|cid].
    + destruct Hrun as [(e' & [= <- <- <-] & ->)|(a & fs1 & t1 & t2 & [=] & _)].
      repeat split.
      * repeat constructor. exists f. by rewrite elem_of_cons; auto.
      * intros ? [=].
    + destruct Hrun as [(e & [=] & _)|(a & fs1 & t1 & t2 & [= <- <- <-] & Hrest & ->)].
      apply IH in Hrest as (-> & Htr & Hups). repeat split.
      * simpl. constructor; [exists f; by rewrite elem_of_cons; auto|].
        eapply Forall_impl; [exact Htr|]. intros ev (g & ? & ? & ?).
        exists g. by rewrite elem_of_cons; auto.
      * intros ups' Hr k Hk.
        destruct (Hups ups' Hr k Hk) as [Hk'|[? ?]].
        -- rewrite set_lookup in Hk'. destruct (decide (f = k)) as [<-|].
           ++ right. by rewrite elem_of_cons; auto.
           ++ by left.
        -- right. by rewrite elem_of_cons; auto.
Qed.

(** When every file has a truthy ledger entry the loop does nothing. *)
Lemma upload_loop_nothing_new files ups fs :
  (∀ f, f ∈ files → JsObject.truthy ledger f = true) →
  forEach files ups (uploadIfNew E pwd options ledger) fs = (inr ups, fs, []).
Proof.
  induction files as [|f files IH]; intros Hall; [done|].
  cbn [forEach]. erewrite bind_ok; last first.
  { unfold uploadIfNew. rewrite Hall by (by left). reflexivity. }
  rewrite IH; [done|]. intros g Hg. apply Hall. by right.
Qed.

End UploadLoop.

(** [updateIpfs] in one piece: what it returns, the file system it leaves
    and the calls it makes, from the result of its upload loop. *)
Lemma updateIpfs_unfold E pwd dest options fs :
  updateIpfs E pwd dest options fs
  = let lp := Path.join [pwd; "ipfs.json"] in
    let dp := Path.join [dest; "ipfs.json"] in
    let reads := [EvReadJson lp; EvWalk (Path.join [pwd; "ipfs"])] in
    match forEach (assetPaths E pwd fs) ∅
            (uploadIfNew E pwd options (loadedLedger pwd fs)) fs with
    | (inl e, _, tl) => (inl e, fs, reads ++ tl)
    | (inr ups, _, tl) =>
        let m := JsObject.assign (loadedLedger pwd fs) ups in
        if (0 <? size ups)%nat then
          (inr m, <[dp := Json m]> (<[lp := Json m]> fs),
           reads ++ tl ++ [EvWriteJson lp; EvCopy lp dp])
        else (inr m, fs, reads ++ tl)
    end.
Proof.
  unfold updateIpfs.
  erewrite bind_ok by apply readJson_or_empty.
  erewrite bind_ok by reflexivity.
  fold (loadedLedger pwd fs). fold (assetPaths E pwd fs).
  destruct (forEach (assetPaths E pwd fs) ∅
              (uploadIfNew E pwd options (loadedLedger pwd fs)) fs)
    as [[[e|ups] fs1] tl] eqn:Hloop;
    pose proof (upload_loop_spec _ _ _ _ _ _ _ _ _ _ Hloop) as (-> & _ & _).
  - erewrite bind_fail by exact Hloop. reflexivity.
  - erewrite bind_ok by exact Hloop.
    fold (JsObject.assign (loadedLedger pwd fs) ups).
    destruct (0 <? size ups)%nat.
    + unfold bind, writeJson, copy, ret. rewrite lookup_insert_eq.
      simpl. by rewrite ?app_nil_r.
    + unfold bind, ret. simpl. by rewrite ?app_nil_r.
Qed.





(** C5, as the code has it: a second run of the publisher, on a file
    system whose ledger file is as the first run left it and whose asset
    directory lists the same relative paths, makes no upload call, writes
    nothing and returns the first run's map, provided every listed path has
    a truthy (non-empty) identifier in that map. *)
Theorem publish_idempotent E pwd dest options fs m fs1 tr1 fs2 :
  updateIpfs E pwd dest options fs = (inr m, fs1, tr1) →
  fs2 !! Path.join [pwd; "ipfs.json"] = fs1 !! Path.join [pwd; "ipfs.json"] →
  assetPaths E pwd fs2 = assetPaths E pwd fs →
  (∀ f, f ∈ assetPaths E pwd fs → JsObject.truthy m f = true) →
  ∃ tr2,
    updateIpfs E pwd dest options fs2 = (inr m, fs2, tr2)
    ∧ Forall (λ ev, is_upload ev = false) tr2.
Proof.
  intros Hrun Hledger Hpaths Htruthy.
  assert (loadedLedger pwd fs2 = m) as Hm.
  { rewrite updateIpfs_unfold in Hrun. cbv zeta in Hrun.
    destruct (forEach (assetPaths E pwd fs) ∅
                (uploadIfNew E pwd options (loadedLedger pwd fs)) fs)
      as [[[e|ups] fs0] tl]; [done|].
    unfold loadedLedger at 1. rewrite Hledger.
    destruct (0 <? size ups)%nat eqn:Hsize; simplify_eq.
    - destruct (decide (Path.join [dest; "ipfs.json"]
                        = Path.join [pwd; "ipfs.json"])) as [->|Hne].
      + by rewrite lookup_insert_eq.
      + by rewrite lookup_insert_ne, lookup_insert_eq.
    - apply Nat.ltb_ge, Nat.le_0_r, map_size_empty_inv in Hsize as ->.
      by rewrite assign_empty_r. }
  rewrite updateIpfs_unfold. cbv zeta. rewrite Hm, Hpaths.
  rewrite upload_loop_nothing_new by exact Htruthy.
  rewrite map_size_empty, assign_empty_r. simpl.
  eexists. split; [reflexivity|]. by repeat constructor.
Qed.

Lemma publish_idempotent_witness :
  let fs := Demo.files [ ("app/ipfs.json", Json {["a.png" := "Qm1"]});
                         ("app/ipfs/a.png", Text "A");
                         ("app/ipfs/b.png", Text "B") ] in
  let run1 := updateIpfs Demo.env "app" "out" Demo.options fs in
  ∃ tr2,
    updateIpfs Demo.env "app" "out" Demo.options run1.1.2
    = (inr (Demo.okOr ∅ run1), run1.1.2, tr2)
    ∧ Forall (λ ev, is_upload ev = false) tr2.
Proof.
  intros fs run1.
  apply (publish_idempotent Demo.env "app" "out" Demo.options fs
           (Demo.okOr ∅ run1) run1.1.2 run1.2 run1.1.2).
  - apply run_eta. vm_compute. reflexivity.
  - reflexivity.
  - vm_compute. reflexivity.
  - intros f Hf.
    assert (f ∈ ["a.png"; "b.png"]) as Hf'.
    { assert (assetPaths Demo.env "app" fs = ["a.png"; "b.png"]) as <-
        by (vm_compute; reflexivity).
      exact Hf. }
    apply elem_of_cons in Hf' as [->|Hf']; [vm_compute; reflexivity|].
    apply list_elem_of_singleton in Hf' as ->. vm_compute. reflexivity.
Defined.

(** When the store answers with the empty string, the entry the first
    run persists is falsy, and the second run, on the same asset directory
    and the ledger the first run persisted, uploads the asset again. *)
Lemma publish_repeated_for_empty_identifier :
  let fs := Demo.files [ ("app/ipfs/a.png", Text "A") ] in
  let run1 := updateIpfs Demo.envEmptyCid "app" "out" Demo.options fs in
  let run2 := updateIpfs Demo.envEmptyCid "app" "out" Demo.options run1.1.2 in
  Demo.succeeded run1 = true
  ∧ assetPaths Demo.envEmptyCid "app" run1.1.2
    = assetPaths Demo.envEmptyCid "app" fs
  ∧ map_to_list (loadedLedger "app" run1.1.2) = [("a.png", "")]
  ∧ run2.2 = [EvReadJson "app/ipfs.json"; EvWalk "app/ipfs";
              EvUpload "app/ipfs/a.png"; EvWriteJson "app/ipfs.json";
              EvCopy "app/ipfs.json" "out/ipfs.json"].
Proof. vm_compute. repeat split; reflexivity. Qed.

(** ** Artifact paths (lines 98-102 and 137-141) *)

Lemma string_app_cons x (a b : string) : String x a +:+ b = String x (a +:+ b).
Proof. reflexivity. Qed.

Lemma string_app_assoc (a b c : string) : (a +:+ b) +:+ c = a +:+ b +:+ c.
Proof.
  induction a as [|x a IH]; [done|]. rewrite !string_app_cons. by f_equal.
Qed.

Lemma string_app_nil_r (a : string) : a +:+ "" = a.
Proof. induction a as [|x a IH]; [done|]. rewrite string_app_cons. by f_equal. Qed.

Lemma string_length_app (a b : string) :
  String.length (a +:+ b) = String.length a + String.length b.
Proof.
  induction a as [|x a IH]; [done|]. rewrite string_app_cons. simpl. by f_equal.
Qed.

Lemma ends_with_app suf a s : ends_with suf s → ends_with suf (a +:+ s).
Proof.
  intros [pre ->]. exists (a +:+ pre). by rewrite string_app_assoc.
Qed.

Lemma last_char_app a b :
  b ≠ "" → JsString.last_char (a +:+ b) = JsString.last_char b.
Proof.
  intros Hb. induction a as [|x a IH]; [done|]. simpl.
  destruct (a +:+ b) eqn:Hab; [|done].
  destruct a; [by destruct b|done].
Qed.

Lemma last_char_no_sep s c :
  has_sep s = false → JsString.last_char s = Some c → Ascii.eqb c "/" = false.
Proof.
  induction s as [|x s IH]; [done|]. simpl.
  intros [Hx Hs]%orb_false_iff. destruct s; [by intros [= <-]|].
  by apply IH.
Qed.

Lemma split_sep_no_sep s : has_sep s = false → JsString.split_sep s = [s].
Proof.
  induction s as [|x s IH]; [done|]. simpl.
  intros [-> Hs]%orb_false_iff. by rewrite IH.
Qed.

(** Splitting a string that ends with separator-free text: the text ends
    the last segment. *)
Lemma split_sep_app_no_sep y suf :
  has_sep suf = false →
  ∃ init l, JsString.split_sep (y +:+ suf) = init ++ [l +:+ suf].
Proof.
  intros Hsuf. induction y as [|c y (init & l & IH)].
  - exists [], "". simpl. by apply split_sep_no_sep.
  - simpl. rewrite IH. destruct (Ascii.eqb c "/").
    + by exists ("" :: init), l.
    + destruct init as [|i init]; simpl.
      * by exists [], (String c l).
      * by exists (String c i :: init), l.
Qed.

Lemma join_snoc sep l s :
  ∃ pre, JsString.join sep (l ++ [s]) = pre +:+ s.
Proof.
  induction l as [|h l (pre & IH)]; [by exists ""|].
  destruct l as [|h' l].
  - exists (h +:+ sep). simpl. by rewrite string_app_assoc.
  - exists (h +:+ sep +:+ pre).
    change (JsString.join sep ((h :: h' :: l) ++ [s]))
      with (h +:+ sep +:+ JsString.join sep ((h' :: l) ++ [s])).
    by rewrite IH, !string_app_assoc.
Qed.

Lemma norm_step_keeps allow acc s :
  2 < String.length s → Path.norm_step allow acc s = s :: acc.
Proof.
  intros Hlen. unfold Path.norm_step.
  assert (∀ t, String.length t < 3 → String.eqb s t = false) as Hneq.
  { intros t Ht. apply String.eqb_neq. intros ->. lia. }
  rewrite !Hneq by (simpl; lia). done.
Qed.

Lemma normalize_segs_snoc allow init s :
  2 < String.length s →
  ∃ kept, Path.normalize_segs allow (init ++ [s]) = kept ++ [s].
Proof.
  intros Hlen. unfold Path.normalize_segs.
  rewrite fold_left_app. simpl. rewrite norm_step_keeps by done.
  simpl. by eexists.
Qed.

(** [path.normalize] keeps a separator-free ending of more than two
    characters. *)
Lemma normalize_ends_with y suf :
  has_sep suf = false → 2 < String.length suf →
  ends_with suf (Path.normalize (y +:+ suf)).
Proof.
  intros Hsep Hlen. unfold Path.normalize.
  assert (suf ≠ "") as Hne by (intros ->; simpl in Hlen; lia).
  assert (y +:+ suf ≠ "") as Hne'.
  { intros H. apply (f_equal String.length) in H.
    rewrite string_length_app in H. simpl in H. lia. }
  apply String.eqb_neq in Hne'. rewrite Hne'.
  destruct (split_sep_app_no_sep y suf Hsep) as (init & l & ->).
  destruct (normalize_segs_snoc (negb (Path.is_absolute (y +:+ suf)))
              init (l +:+ suf)) as (kept & ->).
  { rewrite string_length_app. lia. }
  destruct (join_snoc "/" kept (l +:+ suf)) as (pre & ->).
  assert (pre +:+ l +:+ suf ≠ "") as Hbody.
  { intros H. apply (f_equal String.length) in H.
    rewrite !string_length_app in H. simpl in H. lia. }
  apply String.eqb_neq in Hbody. rewrite Hbody.
  assert (Path.has_trailing_sep (y +:+ suf) = false) as ->.
  { unfold Path.has_trailing_sep. rewrite last_char_app by done.
    destruct (JsString.last_char suf) as [c|] eqn:Hc; [|done].
    by eapply last_char_no_sep. }
  rewrite string_app_nil_r.
  apply ends_with_app, ends_with_app. by exists l.
Qed.

(** The artifact path of lines 102 and 141 ends as the file name does. *)
Lemma outputPath_ends_with dest name suf :
  has_sep suf = false → 2 < String.length suf →
  ends_with suf name → ends_with suf (outputPath dest name).
Proof.
  intros Hsep Hlen [pre ->]. unfold outputPath, Path.join.
  assert (pre +:+ suf ≠ "") as Hne.
  { intros H. apply (f_equal String.length) in H.
    rewrite string_length_app in H. simpl in H. lia. }
  assert (∀ front,
            ends_with suf
              (Path.normalize
                 (JsString.join "/" (front ++ ["src"; "widget"; pre +:+ suf]))))
    as Hfront.
  { intros front.
    destruct (join_snoc "/" (front ++ ["src"; "widget"]) (pre +:+ suf))
      as (y & Hy).
    rewrite <- app_assoc in Hy. simpl in Hy. rewrite Hy.
    rewrite <- string_app_assoc. by apply normalize_ends_with. }
  rewrite filter_cons. destruct (decide (dest ≠ "")).
  - rewrite !filter_cons_True by done. exact (Hfront [dest]).
  - rewrite !filter_cons_True by done. exact (Hfront []).
Qed.

Lemma moduleOutputPath_ends_with E src dest file :
  ends_with ".module.js" (moduleOutputPath E src dest file).
Proof.
  apply outputPath_ends_with; [done|simpl; lia|]. by eexists.
Qed.

Lemma widgetOutputPath_ends_with E src dest file :
  ends_with ".jsx" (widgetOutputPath E src dest file).
Proof.
  apply outputPath_ends_with; [done|simpl; lia|]. by eexists.
Qed.

Lemma ends_with_last_char suf s :
  suf ≠ "" → ends_with suf s →
  JsString.last_char s = JsString.last_char suf.
Proof. intros Hne [pre ->]. by apply last_char_app. Qed.

(** ** The transpilation loops (lines 79-112 and 116-151) *)

Lemma transpileModule_unit E src dest plan :
  transpileModule E src dest plan
  = transpileUnit E Module (moduleOutputPath E src dest) src plan.
Proof. reflexivity. Qed.

Lemma transpileWidget_unit E src dest plan :
  transpileWidget E src dest plan
  = transpileUnit E Widget (widgetOutputPath E src dest) src plan.
Proof. reflexivity. Qed.

Lemma fail_fast_quiet {A} (run : (Error + A) * FS * list Event) :
  Forall (λ ev, failed_transpile ev = false) run.2 → fail_fast run.
Proof.
  intros Hq t1 k f e t2 Htr. rewrite Htr in Hq.
  apply Forall_app in Hq as [_ Hq]. by inversion Hq.
Qed.

Lemma fail_fast_inl {A B} e (fs : FS) tr :
  fail_fast (@inl Error A e, fs, tr) → fail_fast (@inl Error B e, fs, tr).
Proof.
  intros H u1 k g e' u2 Htr. by destruct (H u1 k g e' u2 Htr) as [-> [= ->]].
Qed.

Lemma fail_fast_bind {A B} (m : M A) (f : A → M B) fs :
  fail_fast (m fs) →
  (∀ a fs1 t1, m fs = (inr a, fs1, t1) → fail_fast (f a fs1)) →
  fail_fast (bind m f fs).
Proof.
  intros Hm Hf. unfold bind.
  destruct (m fs) as [[[e|a] fs1] t1] eqn:Hrun.
  { intros u1 k g e' u2 Htr. destruct (Hm u1 k g e' u2 Htr) as [-> [= ->]].
    done. }
  specialize (Hf a fs1 t1 eq_refl).
  destruct (f a fs1) as [[r fs2] t2].
  intros u1 k g e u2 Htr. simpl in *.
  apply app_eq_inv in Htr as [(l & -> & Hl)|(l & -> & ->)].
  - destruct l as [|ev l].
    + simpl in Hl. subst t2. by apply (Hf [] k g e u2).
    + injection Hl as <- ->.
      by destruct (Hm u1 k g e l eq_refl) as [_ ?].
  - by apply (Hf l k g e u2).
Qed.

Section Batch.
Context (E : Env) (k : Kind) (outp : string → string).
Context (src : string) (plan : BuildPlan).

Lemma transpileUnit_run st file fs r fs' tr :
  transpileUnit E k outp src plan st file fs = (r, fs', tr) →
  (∃ e, r = inl e ∧ fs' = fs
        ∧ (tr = [EvReadFile k file]
           ∨ tr = [EvReadFile k file; EvTranspile k file (Some e)]))
  ∨ (∃ content new_file,
       fs !! file = Some content
       ∧ transpile E content (plan_params plan)
           (transpileOptions (plan_config plan) file) = inr new_file
       ∧ r = inr (st.1 ++ tagLogs E src file (out_logs new_file),
                  st.2 ++ [outp file])
       ∧ fs' = <[outp file := Text (out_code new_file)]> fs
       ∧ tr = [EvReadFile k file; EvTranspile k file None;
               EvOutputFile k (outp file)]).
Proof.
  destruct st as [logs nbf].
  unfold transpileUnit, bind, readFile, transpileJS, outputFile, ret.
  destruct (fs !! file) as [content|] eqn:Hfile.
  - destruct (transpile E content (plan_params plan)
                (transpileOptions (plan_config plan) file))
      as [e|new_file] eqn:Ht.
    + intros [= <- <- <-]. left. exists e. by auto.
    + intros [= <- <- <-]. right. by exists content, new_file.
  - intros [= <- <- <-]. left. exists (ENOENT file). by auto.
Qed.

(** What a loop does, whatever its outcome: its calls are its own; a
    failed transpile call ends it with that error; it deletes nothing and
    every artifact it wrote is on disk afterwards; it writes only artifacts
    of its files; and when it completes it has written the artifact of each
    of its files and recorded their paths, in order. *)
Lemma batch_spec files st fs r fs' tr :
  forEach files st (transpileUnit E k outp src plan) fs = (r, fs', tr) →
  Forall (λ ev, event_kind ev = Some k) tr
  ∧ fail_fast (r, fs', tr)
  ∧ (∀ p, is_Some (fs !! p) → is_Some (fs' !! p))
  ∧ (∀ p, is_Some (fs' !! p) →
          is_Some (fs !! p) ∨ EvOutputFile k p ∈ tr)
  ∧ (∀ k' p, EvOutputFile k' p ∈ tr →
             is_Some (fs' !! p) ∧ p ∈ map outp files)
  ∧ (∀ st', r = inr st' →
            st'.2 = st.2 ++ map outp files
            ∧ ∀ f, f ∈ files → EvOutputFile k (outp f) ∈ tr).
Proof.
  revert st fs r fs' tr.
  induction files as [|file files IH]; intros st fs r fs' tr Hrun.
  { injection Hrun as <- <- <-. split; [constructor|].
    split; [by apply fail_fast_quiet|].
    split; [done|]. split; [by left|].
    split; [by intros ?? ?%elem_of_nil|].
    intros st' [= <-]. split; [by rewrite app_nil_r|].
    by intros ? ?%elem_of_nil. }
  cbn [forEach] in Hrun.
  pose proof Hrun as Hff.
  apply bind_run in Hrun
    as [(e & Hunit & ->)|(st1 & fs1 & t1 & t2 & Hunit & Hrest & ->)].
  - (* this unit failed *)
    apply transpileUnit_run in Hunit
      as [(e' & [= <-] & -> & Htr)|(? & ? & _ & _ & [=] & _)].
    split; [destruct Htr as [->| ->]; by repeat constructor|].
    split.
    { intros u1 k' g e' u2 Hu. simpl in Hu.
      destruct Htr as [->| ->].
      - destruct u1 as [|? [|? ?]]; simpl in Hu; by simplify_eq.
      - destruct u1 as [|? [|? [|? ?]]]; simpl in Hu; simplify_eq.
        by split. }
    split; [done|]. split; [by left|].
    split; [|by intros ? [=]].
    intros k' p Hp. destruct Htr as [->| ->]; trace_absurd Hp.
  - (* this unit went through *)
    apply transpileUnit_run in Hunit
      as [(? & [=] & _)|(content & new_file & Hfile & Ht & [= ->] & -> & ->)].
    apply IH in Hrest as (Hkind & Hfast & Hmono & Hdom & Hout & Hok).
    split; [by repeat constructor|].
    split.
    { intros u1 k' g e' u2 Hu. simpl in Hu.
      destruct u1 as [|? [|? [|? u1]]]; simpl in Hu; simplify_eq.
      by apply (Hfast u1 k' g e' u2). }
    split.
    { intros p Hp. apply Hmono. rewrite lookup_insert.
      case_decide; by eauto. }
    split.
    { intros p Hp. destruct (Hdom p Hp) as [Hp'|Hp'].
      - rewrite lookup_insert in Hp'. case_decide as Heq.
        + right. rewrite <- Heq. do 2 right. by left.
        + by left.
      - right. by do 3 right. }
    split.
    { intros k' p Hp. cbn [map]. rewrite elem_of_cons.
      change (EvOutputFile k' p ∈
                [EvReadFile k file; EvTranspile k file None;
                 EvOutputFile k (outp file)] ++ t2) in Hp.
      apply elem_of_app in Hp as [Hp|Hp].
      - assert (p = outp file) as ->.
        { rewrite !elem_of_cons, elem_of_nil in Hp.
          destruct Hp as [?|[?|[?|[]]]]; by simplify_eq. }
        split; [|by left]. apply Hmono. by rewrite lookup_insert_eq.
      - destruct (Hout k' p Hp) as [? ?]. by auto. }
    intros st' ->. destruct (Hok st' eq_refl) as [-> Hall].
    split; [simpl; by rewrite <- app_assoc|].
    intros f [->|Hf]%elem_of_cons; [do 2 right; by left|].
    do 3 right. by apply Hall.
Qed.

End Batch.

(** ** Reconciliation (lines 153-158) *)

Lemma reconcile_run original new fs :
  reconcile original new fs
  = (inr tt, reconciled original new fs, map EvRemove (stale original new)).
Proof.
  unfold reconcile, reconciled, stale. revert fs.
  induction original as [|p l IH]; intros fs; [done|].
  cbn [forEach]. rewrite filter_cons.
  destruct (decide (p ∉ new)) as [Hp|Hp].
  - rewrite bool_decide_eq_false_2 by done.
    erewrite bind_ok by reflexivity. by rewrite IH.
  - apply dec_stable in Hp. rewrite bool_decide_eq_true_2 by done.
    erewrite bind_ok by reflexivity. by rewrite IH.
Qed.

Lemma fold_delete_lookup (l : list string) (fs : FS) p :
  fold_left (λ fs p, delete p fs) l fs !! p
  = if bool_decide (p ∈ l) then None else fs !! p.
Proof.
  revert fs. induction l as [|q l IH]; intros fs; [done|].
  simpl. rewrite IH. destruct (decide (p = q)) as [->|Hne].
  - rewrite lookup_delete_eq.
    rewrite (bool_decide_eq_true_2 (q ∈ q :: l)) by (by left).
    by case_bool_decide.
  - rewrite lookup_delete_ne by done.
    destruct (decide (p ∈ l)) as [Hin|Hin].
    + rewrite !bool_decide_eq_true_2; [done|by right|done].
    + rewrite !bool_decide_eq_false_2; [done| |done].
      by intros [?|?]%elem_of_cons.
Qed.

Lemma reconciled_lookup original new fs p :
  reconciled original new fs !! p
  = if bool_decide (p ∈ original ∧ p ∉ new) then None else fs !! p.
Proof.
  unfold reconciled. rewrite fold_delete_lookup. unfold stale.
  destruct (decide (p ∈ original ∧ p ∉ new)) as [[H1 H2]|Hn].
  - rewrite !bool_decide_eq_true_2; [done|done|].
    by apply list_elem_of_filter.
  - rewrite !bool_decide_eq_false_2; [done|done|].
    intros [? ?]%list_elem_of_filter. by apply Hn.
Qed.

(** ** [buildApp] after [prepare], in one piece *)

Lemma transpileAndReconcile_unfold E src dest plan fs :
  transpileAndReconcile E src dest plan fs
  = match forEach (plan_modules plan) ([], [])
            (transpileModule E src dest plan) fs with
    | (inl e, fsm, trm) => (inl e, fsm, trm)
    | (inr st, fsm, trm) =>
        match forEach (plan_widgets plan) st
                (transpileWidget E src dest plan) fsm with
        | (inl e, fsw, trw) => (inl e, fsw, trm ++ trw)
        | (inr (logs, new_build_files), fsw, trw) =>
            let original := plan_original_build_files plan in
            let fsr := reconciled original new_build_files fsw in
            let trr := map EvRemove (stale original new_build_files) in
            match cfg_accounts (plan_config plan) with
            | None => (inl (TypeError "deploy"), fsr, trm ++ trw ++ trr)
            | Some accounts =>
                (match metadata E src dest (deploy accounts) with
                 | Some e => inl e
                 | None => inr logs
                 end, fsr, trm ++ trw ++ trr ++ [EvGenerateData src dest])
            end
        end
    end.
Proof.
  unfold transpileAndReconcile, bind at 1. rewrite tryCatch_rethrow.
  destruct (forEach (plan_modules plan) ([], [])
              (transpileModule E src dest plan) fs)
    as [[[e|st] fsm] trm]; [done|].
  unfold bind at 1. rewrite tryCatch_rethrow.
  destruct (forEach (plan_widgets plan) st
              (transpileWidget E src dest plan) fsm)
    as [[[e|[logs new_build_files]] fsw] trw]; [done|].
  unfold bind at 1. rewrite reconcile_run. cbv zeta.
  destruct (cfg_accounts (plan_config plan)) as [accounts|]; simpl.
  - unfold bind, generateData, ret.
    destruct (metadata E src dest (deploy accounts)); simpl;
      by rewrite ?app_nil_r.
  - by rewrite ?app_nil_r.
Qed.

(** ** [prepare] in one piece *)

Lemma readConfig_run E src network fs :
  tryCatch (let! c := readConfig E (Path.join [src; "bos.config.json"]) network
            in ret (Some c))
           (λ _, ret None) fs
  = (inr (loadedConfig E src network fs), fs,
     [EvReadConfig (Path.join [src; "bos.config.json"]) network]).
Proof.
  unfold tryCatch, bind, readConfig, ret, loadedConfig.
  by destruct (parseConfig E (fs !! Path.join [src; "bos.config.json"]) network).
Qed.

Lemma prepare_unfold E src dest network fs :
  prepare E src dest network fs
  = let reads :=
      EvReadConfig (Path.join [src; "bos.config.json"]) network
      :: map (λ a, EvReadJson (Path.join [src; a]))
             (aliasSources (loadedConfig E src network fs) src) in
    match loadedConfig E src network fs with
    | None => (inl (TypeError "ipfs"), fs, reads)
    | Some config =>
        match cfg_ipfs config with
        | None => (inl (TypeError "uploadApi"), fs, reads)
        | Some ipfs =>
            match updateIpfs E src dest
                    {| uploadAPI_url := uploadApi ipfs;
                       uploadAPI_headers := uploadApiHeaders ipfs |} fs with
            | (inl e, fs1, t1) => (inl e, fs1, reads ++ t1)
            | (inr ipfsMap, fs1, t1) =>
                let modules := catalog (Path.join [src; "module"]) fs1 in
                (inr {| plan_config := config;
                        plan_params :=
                          {| p_config := config;
                             p_modules := map (moduleName E src) modules;
                             p_ipfsMap := ipfsMap;
                             p_ipfsGateway := gateway ipfs;
                             p_aliases := aliasTable E src network fs |};
                        plan_modules := modules;
                        plan_widgets := catalog (Path.join [src; "widget"]) fs1;
                        plan_original_build_files :=
                          filesUnder (Path.join [dest; "src"; "widget"]) fs1 |},
                 fs1,
                 reads ++ t1 ++ [EvWalk (Path.join [src; "module"]);
                                 EvWalk (Path.join [src; "widget"]);
                                 EvWalk (Path.join [dest; "src"; "widget"])])
            end
        end
    end.
Proof.
  unfold prepare.
  erewrite bind_ok by apply readConfig_run.
  erewrite bind_ok by apply loadAliases_run.
  fold (aliasTable E src network fs). cbv zeta.
  destruct (loadedConfig E src network fs) as [config|]; [|done].
  destruct (cfg_ipfs config) as [ipfs|]; [|simpl; by rewrite app_nil_r].
  unfold prop at 1 2. unfold bind at 1 2. unfold ret at 1 2.
  destruct (updateIpfs E src dest
              {| uploadAPI_url := uploadApi ipfs;
                 uploadAPI_headers := uploadApiHeaders ipfs |} fs)
    as [[[e|ipfsMap] fs1] t1] eqn:Hup.
  - unfold bind. rewrite Hup. simpl. by rewrite ?app_nil_r.
  - unfold bind. rewrite Hup. simpl. by rewrite ?app_nil_r.
Qed.

Lemma updateIpfs_trace E pwd dest options fs r fs1 t1 :
  updateIpfs E pwd dest options fs = (r, fs1, t1) →
  Forall (λ ev, setup_event ev = true) t1.
Proof.
  rewrite updateIpfs_unfold. cbv zeta.
  destruct (forEach (assetPaths E pwd fs) ∅
              (uploadIfNew E pwd options (loadedLedger pwd fs)) fs)
    as [[[e|ups] fs0] tl] eqn:Hloop;
    apply upload_loop_spec in Hloop as (_ & Hup & _);
    assert (Forall (λ ev, setup_event ev = true) tl) as Htl
      by (eapply Forall_impl; [exact Hup|]; by intros ev (f & _ & _ & ->)).
  - intros [= <- <- <-]. by repeat constructor.
  - destruct (0 <? size ups)%nat; intros [= <- <- <-].
    + repeat constructor. apply Forall_app. split; [done|].
      by repeat constructor.
    + by repeat constructor.
Qed.

Lemma prepare_trace E src dest network fs r fs0 tr0 :
  prepare E src dest network fs = (r, fs0, tr0) →
  Forall (λ ev, setup_event ev = true) tr0.
Proof.
  rewrite prepare_unfold. cbv zeta.
  assert (Forall (λ ev, setup_event ev = true)
            (map (λ a, EvReadJson (Path.join [src; a]))
               (aliasSources (loadedConfig E src network fs) src))) as Hal.
  { apply Forall_forall. intros ev Hev.
    apply (list_elem_of_fmap (λ a, EvReadJson (Path.join [src; a]))) in Hev
      as (a & -> & _). done. }
  destruct (loadedConfig E src network fs) as [config|];
    [|intros [= <- <- <-]; by constructor].
  destruct (cfg_ipfs config) as [ipfs|];
    [|intros [= <- <- <-]; by constructor].
  destruct (updateIpfs E src dest _ fs) as [[[e|ipfsMap] fs1] t1] eqn:Hup;
    apply updateIpfs_trace in Hup; intros [= <- <- <-].
  - constructor; [done|]. by apply Forall_app.
  - constructor; [done|]. apply Forall_app. split; [done|].
    apply Forall_app. split; [done|]. by repeat constructor.
Qed.

Lemma setup_event_kind ev : setup_event ev = true → event_kind ev = None.
Proof. by destruct ev. Qed.

(** How a run of the second half of [buildApp] is laid out. *)
Lemma transpileAndReconcile_phases E src dest plan fs0 r fs' tr :
  transpileAndReconcile E src dest plan fs0 = (r, fs', tr) →
  ∃ trm trw trr,
    tr = trm ++ trw ++ trr
    ∧ Forall (λ ev, event_kind ev = Some Module) trm
    ∧ Forall (λ ev, event_kind ev = Some Widget) trw
    ∧ Forall (λ ev, event_kind ev = None) trr
    ∧ (trw ++ trr ≠ [] →
       ∀ m, m ∈ plan_modules plan →
            EvOutputFile Module (moduleOutputPath E src dest m) ∈ trm)
    ∧ fail_fast (r, fs', tr)
    ∧ (∀ k p, EvOutputFile k p ∈ tr →
              is_Some (fs' !! p) ∧ p ∈ newArtifacts E src dest plan)
    ∧ (∀ p, EvOutputFile Module p ∈ tr →
            p ∈ map (moduleOutputPath E src dest) (plan_modules plan))
    ∧ (∀ p, EvOutputFile Widget p ∈ tr →
            p ∈ map (widgetOutputPath E src dest) (plan_widgets plan)).
Proof.
  rewrite transpileAndReconcile_unfold.
  rewrite transpileModule_unit, transpileWidget_unit.
  destruct (forEach (plan_modules plan) ([], []) _ fs0)
    as [[rm fsm] trm] eqn:Hm.
  apply batch_spec in Hm as (Hmk & Hmf & Hmmono & Hmdom & Hmout & Hmok).
  destruct rm as [e|st].
  { (* the module loop failed *)
    intros [= <- <- <-]. exists trm, [], [].
    rewrite !app_nil_r.
    split; [done|]. split; [done|]. split; [done|]. split; [done|].
    split; [by intros []|]. split; [by eapply fail_fast_inl|].
    split.
    { intros k p Hp. destruct (Hmout k p Hp) as [? ?]. split; [done|].
      unfold newArtifacts. apply elem_of_app. by left. }
    split.
    - intros p Hp. by eapply Hmout.
    - intros p Hp. eapply Forall_forall in Hmk; [|exact Hp]. done. }
  destruct (Hmok st eq_refl) as [Hst Hmall]. simpl in Hst.
  destruct (forEach (plan_widgets plan) st _ fsm)
    as [[rw fsw] trw] eqn:Hw.
  apply batch_spec in Hw as (Hwk & Hwf & Hwmono & Hwdom & Hwout & Hwok).
  assert (∀ k p, EvOutputFile k p ∈ trm ++ trw →
                 is_Some (fsw !! p) ∧ p ∈ newArtifacts E src dest plan)
    as Hboth.
  { intros k p [Hp|Hp]%elem_of_app; unfold newArtifacts; rewrite elem_of_app.
    - destruct (Hmout k p Hp). by auto.
    - destruct (Hwout k p Hp). by auto. }
  assert (∀ p, EvOutputFile Module p ∈ trm ++ trw →
               p ∈ map (moduleOutputPath E src dest) (plan_modules plan))
    as Hmod.
  { intros p [Hp|Hp]%elem_of_app; [by eapply Hmout|].
    eapply Forall_forall in Hwk; [|exact Hp]. done. }
  assert (∀ p, EvOutputFile Widget p ∈ trm ++ trw →
               p ∈ map (widgetOutputPath E src dest) (plan_widgets plan))
    as Hwid.
  { intros p [Hp|Hp]%elem_of_app; [|by eapply Hwout].
    eapply Forall_forall in Hmk; [|exact Hp]. done. }
  destruct rw as [e|[logs nbf]].
  { (* the widget loop failed *)
    intros [= <- <- <-]. exists trm, trw, [].
    rewrite !app_nil_r.
    split; [done|]. split; [done|]. split; [done|]. split; [done|].
    split; [by intros _|].
    split; [|done].
    apply (fail_fast_inl (B := list Log)) in Hwf.
    intros u1 k f e' u2 Hu. simpl in Hu.
    apply app_eq_inv in Hu as [(l & -> & Hl)|(l & -> & ->)].
    - destruct l as [|ev l]; simpl in Hl.
      + subst trw. by apply (Hwf [] k f e' u2).
      + injection Hl as <- ->.
        by destruct (Hmf u1 k f e' l eq_refl) as [_ ?].
    - by apply (Hwf l k f e' u2). }
  destruct (Hwok _ eq_refl) as [Hnbf Hwall]. simpl in Hnbf.
  rewrite Hst in Hnbf. simpl in Hnbf.
  fold (newArtifacts E src dest plan) in Hnbf. subst nbf.
  cbv zeta.
  set (trr := map EvRemove
                (stale (plan_original_build_files plan)
                   (newArtifacts E src dest plan))).
  assert (Forall (λ ev, event_kind ev = None ∧ failed_transpile ev = false
                        ∧ ∀ k p, ev ≠ EvOutputFile k p) trr) as Hrr.
  { apply Forall_forall. intros ev Hev.
    apply (list_elem_of_fmap EvRemove) in Hev as (p & -> & _). done. }
  assert (∀ tail,
            Forall (λ ev, event_kind ev = None ∧ failed_transpile ev = false
                          ∧ ∀ k p, ev ≠ EvOutputFile k p) tail →
            ∀ u1 k f e' u2,
              trm ++ trw ++ tail = u1 ++ EvTranspile k f (Some e') :: u2 →
              False) as Hquiet.
  { intros tail Htail u1 k f e' u2 Hu.
    assert (EvTranspile k f (Some e') ∈ trm ++ trw ++ tail) as Hin
      by (rewrite Hu; apply elem_of_app; right; by left).
    apply elem_of_app in Hin as [Hin|Hin].
    - apply list_elem_of_split in Hin as (a & b & ->).
      by destruct (Hmf a k f e' b eq_refl) as [_ ?].
    - apply elem_of_app in Hin as [Hin|Hin].
      + apply list_elem_of_split in Hin as (a & b & ->).
        by destruct (Hwf a k f e' b eq_refl) as [_ ?].
      + eapply Forall_forall in Htail; [|exact Hin].
        by destruct Htail as (_ & ? & _). }
  assert (∀ tail k p,
            Forall (λ ev, event_kind ev = None ∧ failed_transpile ev = false
                          ∧ ∀ k p, ev ≠ EvOutputFile k p) tail →
            EvOutputFile k p ∈ trm ++ trw ++ tail →
            EvOutputFile k p ∈ trm ++ trw) as Hstrip.
  { intros tail k p Htail Hin. rewrite app_assoc in Hin.
    apply elem_of_app in Hin as [Hin|Hin]; [done|].
    eapply Forall_forall in Htail; [|exact Hin].
    destruct Htail as (_ & _ & Hne). by destruct (Hne k p). }
  assert (∀ k p, EvOutputFile k p ∈ trm ++ trw →
            is_Some (reconciled (plan_original_build_files plan)
                       (newArtifacts E src dest plan) fsw !! p)
            ∧ p ∈ newArtifacts E src dest plan) as Hkept.
  { intros k p Hp. destruct (Hboth k p Hp) as [Hsome Hnew].
    split; [|done]. rewrite reconciled_lookup.
    rewrite bool_decide_eq_false_2; [done|]. by intros [_ ?]. }
  destruct (cfg_accounts (plan_config plan)) as [accounts|].
  - intros [= <- <- <-].
    exists trm, trw, (trr ++ [EvGenerateData src dest]).
    assert (Forall (λ ev, event_kind ev = None ∧ failed_transpile ev = false
                          ∧ ∀ k p, ev ≠ EvOutputFile k p)
              (trr ++ [EvGenerateData src dest])) as Htail
      by (apply Forall_app; split; [done|by repeat constructor]).
    split; [done|]. split; [done|]. split; [done|].
    split; [eapply Forall_impl; [exact Htail|]; by intros ? (? & _)|].
    split; [by intros _|].
    split; [intros u1 k f e' u2 Hu; by destruct (Hquiet _ Htail _ _ _ _ _ Hu)|].
    split; [intros k p Hp; eapply Hkept, Hstrip; by eauto|].
    split; intros p Hp; [apply Hmod|apply Hwid]; eapply Hstrip; by eauto.
  - intros [= <- <- <-]. exists trm, trw, trr.
    split; [done|]. split; [done|]. split; [done|].
    split; [eapply Forall_impl; [exact Hrr|]; by intros ? (? & _)|].
    split; [by intros _|].
    split; [intros u1 k f e' u2 Hu; by destruct (Hquiet _ Hrr _ _ _ _ _ Hu)|].
    split; [intros k p Hp; eapply Hkept, Hstrip; by eauto|].
    split; intros p Hp; [apply Hmod|apply Hwid]; eapply Hstrip; by eauto.
Qed.

(** ** [buildApp] as a whole *)

Lemma buildApp_unfold E src dest network fs :
  buildApp E src dest network fs
  = match prepare E src dest network fs with
    | (inl e, fs0, tr0) => (inl e, fs0, tr0)
    | (inr plan, fs0, tr0) =>
        let '(r, fs', tr) := transpileAndReconcile E src dest plan fs0 in
        (r, fs', tr0 ++ tr)
    end.
Proof. reflexivity. Qed.

Lemma app_split_after {A} (P : A → Prop) (a b t1 t2 : list A) x :
  Forall (λ y, ¬ P y) a → P x →
  a ++ b = t1 ++ x :: t2 →
  ∃ l, t1 = a ++ l ∧ b = l ++ x :: t2.
Proof.
  intros Ha Hx [(l & -> & Hl)|(l & -> & ->)]%app_eq_inv.
  - destruct l as [|y l]; simpl in Hl.
    + exists []. by rewrite !app_nil_r.
    + injection Hl as <- ->.
      apply Forall_app in Ha as [_ Ha]. by inversion Ha.
  - by exists l.
Qed.

Lemma filesUnder_elem dir (fs : FS) p :
  p ∈ filesUnder dir fs ↔ is_under dir p = true ∧ is_Some (fs !! p).
Proof.
  unfold filesUnder. rewrite list_elem_of_filter.
  split; intros [Hu Hp]; (split; [done|]).
  - apply list_elem_of_fmap in Hp as ([q c] & -> & Hq).
    apply elem_of_map_to_list in Hq. by eauto.
  - destruct Hp as [c Hc]. apply list_elem_of_fmap. exists (p, c).
    split; [done|]. by apply elem_of_map_to_list.
Qed.

(** C6: in every run of the build, whatever its outcome: once a call of
    the widget loop has been made no call of the module loop follows, and
    by then every discovered module has had its artifact written; a
    transpile call that throws is the last call the build makes (so no
    later unit of its batch, and nothing else, is processed) and the error
    it threw is the error the build ends with; and every artifact written
    during the run is on disk when the run ends. *)
Theorem batches_fail_fast E src dest network fs r fs' tr :
  buildApp E src dest network fs = (r, fs', tr) →
  (∀ t1 ev t2, tr = t1 ++ ev :: t2 → event_kind ev = Some Widget →
     Forall (λ ev', event_kind ev' ≠ Some Module) t2
     ∧ ∀ plan fs0 tr0,
         prepare E src dest network fs = (inr plan, fs0, tr0) →
         ∀ m, m ∈ plan_modules plan →
              EvOutputFile Module (moduleOutputPath E src dest m) ∈ t1)
  ∧ (∀ t1 k f e t2,
       tr = t1 ++ EvTranspile k f (Some e) :: t2 → t2 = [] ∧ r = inl e)
  ∧ (∀ k p, EvOutputFile k p ∈ tr → is_Some (fs' !! p)).
Proof.
  rewrite buildApp_unfold.
  destruct (prepare E src dest network fs) as [[[e|plan] fs0] tr0] eqn:Hprep;
    pose proof (prepare_trace _ _ _ _ _ _ _ _ Hprep) as Hsetup.
  { (* [prepare] threw *)
    intros [= <- <- <-]. split; [|split].
    - intros t1 ev t2 -> Hev.
      apply Forall_app in Hsetup as [_ Hsetup]. inversion Hsetup as [|?? H].
      apply setup_event_kind in H. congruence.
    - intros t1 k f e' t2 ->.
      apply Forall_app in Hsetup as [_ Hsetup]. by inversion Hsetup.
    - intros k p Hp. eapply Forall_forall in Hsetup; [|exact Hp]. done. }
  destruct (transpileAndReconcile E src dest plan fs0)
    as [[r1 fs1] tr1] eqn:Hrun.
  intros [= <- <- <-].
  apply transpileAndReconcile_phases in Hrun
    as (trm & trw & trr & -> & Hm & Hw & Hr & Hfull & Hfast & Hout & _ & _).
  split; [|split].
  - intros t1 ev t2 Htr Hev.
    destruct (app_split_after (λ y, event_kind y = Some Widget)
                tr0 (trm ++ trw ++ trr) t1 t2 ev) as (l & -> & Hl);
      [|done|done|].
    { eapply Forall_impl; [exact Hsetup|].
      intros y Hy%setup_event_kind. congruence. }
    destruct (app_split_after (λ y, event_kind y = Some Widget)
                trm (trw ++ trr) l t2 ev) as (l' & -> & Hl');
      [|done|done|].
    { eapply Forall_impl; [exact Hm|]. intros y Hy. congruence. }
    split.
    + assert (Forall (λ ev', event_kind ev' ≠ Some Module) (trw ++ trr))
        as Hrest.
      { apply Forall_app. split.
        - eapply Forall_impl; [exact Hw|]. intros y Hy. congruence.
        - eapply Forall_impl; [exact Hr|]. intros y Hy. congruence. }
      rewrite Hl' in Hrest. apply Forall_app in Hrest as [_ Hrest].
      by inversion Hrest.
    + intros plan' fs0' tr0' [= <- <- <-] m Hmod.
      apply elem_of_app. right. apply elem_of_app. left.
      apply Hfull; [|done]. rewrite Hl'. by destruct l'.
  - intros t1 k f e t2 Htr.
    destruct (app_split_after (λ y, failed_transpile y = true)
                tr0 (trm ++ trw ++ trr) t1 t2 (EvTranspile k f (Some e)))
      as (l & -> & Hl); [|done|done|].
    { eapply Forall_impl; [exact Hsetup|]. intros y Hy. by destruct y. }
    by apply (Hfast l k f e t2).
  - intros k p [Hp|Hp]%elem_of_app.
    + eapply Forall_forall in Hsetup; [|exact Hp]. done.
    + by apply (Hout k p).
Qed.

(** Three modules, walked in the order [c.js], [a.js], [b.js]; the second
    one does not transpile.  The build ends with that error, [b.js] is
    never read, and the artifact of [c.js] is on disk. *)
Lemma batches_fail_fast_witness :
  let fs := Demo.files [ ("app/bos.config.json", Text "{}");
                         ("app/module/a.js", Text "bad");
                         ("app/module/b.js", Text "B");
                         ("app/module/c.js", Text "C");
                         ("app/widget/w.jsx", Text "W") ] in
  let run := buildApp Demo.env "app" "out" "mainnet" fs in
  run.1.1 = inl (Failure "syntax error")
  ∧ is_Some (run.1.2 !! "out/src/widget/c.module.js")
  ∧ EvReadFile Module "app/module/b.js" ∉ run.2.
Proof.
  intros fs run.
  destruct (batches_fail_fast Demo.env "app" "out" "mainnet" fs
              run.1.1 run.1.2 run.2 (run_triple run))
    as (_ & Hfast & Hkept).
  assert (run.2
          = [EvReadConfig "app/bos.config.json" "mainnet";
             EvReadJson "app/app/aliases.json"; EvReadJson "app/ipfs.json";
             EvWalk "app/ipfs"; EvWalk "app/module"; EvWalk "app/widget";
             EvWalk "out/src/widget"; EvReadFile Module "app/module/c.js";
             EvTranspile Module "app/module/c.js" None;
             EvOutputFile Module "out/src/widget/c.module.js";
             EvReadFile Module "app/module/a.js"]
            ++ EvTranspile Module "app/module/a.js"
                 (Some (Failure "syntax error")) :: []) as Htr
    by (vm_compute; reflexivity).
  split; [by apply (Hfast _ _ _ _ _ Htr)|].
  split.
  - apply (Hkept Module). rewrite Htr. simpl. do 9 right. by left.
  - rewrite Htr. simpl. by trace_absent.
Defined.

(** ** Reconciliation of the output directory *)

(** A successful run of the second half of [buildApp]: both loops went
    through; the file system they leave holds every new artifact and
    otherwise only what was there before; then the stale snapshot paths
    are removed and the metadata generated. *)
Lemma transpileAndReconcile_ok E src dest plan fs0 logs fs' tr :
  transpileAndReconcile E src dest plan fs0 = (inr logs, fs', tr) →
  ∃ fsw tw,
    fs' = reconciled (plan_original_build_files plan)
            (newArtifacts E src dest plan) fsw
    ∧ tr = tw ++ map EvRemove (stale (plan_original_build_files plan)
                                 (newArtifacts E src dest plan))
              ++ [EvGenerateData src dest]
    ∧ Forall (λ ev, is_Some (event_kind ev)) tw
    ∧ (∀ p, p ∈ newArtifacts E src dest plan → is_Some (fsw !! p))
    ∧ (∀ p, is_Some (fsw !! p) →
            is_Some (fs0 !! p) ∨ p ∈ newArtifacts E src dest plan).
Proof.
  rewrite transpileAndReconcile_unfold.
  rewrite transpileModule_unit, transpileWidget_unit.
  destruct (forEach (plan_modules plan) ([], []) _ fs0)
    as [[[e|st] fsm] trm] eqn:Hm; [done|].
  apply batch_spec in Hm as (Hmk & _ & Hmmono & Hmdom & Hmout & Hmok).
  destruct (Hmok st eq_refl) as [Hst Hmall]. simpl in Hst.
  destruct (forEach (plan_widgets plan) st _ fsm)
    as [[[e|[logs' nbf]] fsw] trw] eqn:Hw; [done|].
  apply batch_spec in Hw as (Hwk & _ & Hwmono & Hwdom & Hwout & Hwok).
  destruct (Hwok _ eq_refl) as [Hnbf Hwall]. simpl in Hnbf.
  rewrite Hst in Hnbf. fold (newArtifacts E src dest plan) in Hnbf.
  subst nbf. cbv zeta.
  destruct (cfg_accounts (plan_config plan)) as [accounts|]; [|done].
  destruct (metadata E src dest (deploy accounts)); [done|].
  intros [= <- <- <-]. exists fsw, (trm ++ trw).
  split; [done|]. split; [by rewrite <- !app_assoc|].
  split.
  { apply Forall_app. split.
    - eapply Forall_impl; [exact Hmk|]. intros ev ->. by eauto.
    - eapply Forall_impl; [exact Hwk|]. intros ev ->. by eauto. }
  split.
  - intros p [Hp|Hp]%elem_of_app.
    + apply list_elem_of_fmap in Hp as (m & -> & Hmod).
      apply Hwmono. by eapply Hmout, Hmall.
    + apply list_elem_of_fmap in Hp as (w & -> & Hwid).
      by eapply Hwout, Hwall.
  - intros p Hp. unfold newArtifacts. rewrite elem_of_app.
    destruct (Hwdom p Hp) as [Hp'|Hp'].
    + destruct (Hmdom p Hp') as [?|Hp'']; [by left|].
      right. left. by eapply Hmout.
    + right. right. by eapply Hwout.
Qed.

(** C4: in a build that succeeds, the snapshot holds the files that are
    below the output directory when [prepare] is done, and the walk that
    takes it is the last call before the first artifact is written; when
    the build is over every snapshot path that is not a new artifact path
    has been removed and is gone, every new artifact path is on disk and
    was not removed, and the files below the output directory are the new
    artifact paths and nothing else. *)
Theorem reconcile_converges E src dest network fs logs fs' tr plan fs0 tr0 :
  buildApp E src dest network fs = (inr logs, fs', tr) →
  prepare E src dest network fs = (inr plan, fs0, tr0) →
  let outdir := Path.join [dest; "src"; "widget"] in
  let new := newArtifacts E src dest plan in
  plan_original_build_files plan = filesUnder outdir fs0
  ∧ (∃ before after,
       tr0 = before ++ [EvWalk outdir] ∧ tr = tr0 ++ after
       ∧ ∀ k p, EvOutputFile k p ∉ tr0)
  ∧ (∀ p, p ∈ plan_original_build_files plan → p ∉ new →
          fs' !! p = None ∧ EvRemove p ∈ tr)
  ∧ (∀ p, p ∈ new → is_Some (fs' !! p) ∧ EvRemove p ∉ tr)
  ∧ (∀ p, is_under outdir p = true → (is_Some (fs' !! p) ↔ p ∈ new)).
Proof.
  intros Hbuild Hprep outdir new.
  pose proof (prepare_trace _ _ _ _ _ _ _ _ Hprep) as Hsetup.
  rewrite buildApp_unfold, Hprep in Hbuild.
  destruct (transpileAndReconcile E src dest plan fs0)
    as [[r1 fs1] tr1] eqn:Hrun.
  injection Hbuild as -> -> <-.
  apply transpileAndReconcile_ok in Hrun
    as (fsw & tw & -> & -> & Htw & Hnew & Hdom).
  fold new in Hnew, Hdom |- *.
  assert (plan_original_build_files plan = filesUnder outdir fs0
          ∧ ∃ before, tr0 = before ++ [EvWalk outdir]) as [Horig Hwalk].
  { rewrite prepare_unfold in Hprep. cbv zeta in Hprep.
    destruct (loadedConfig E src network fs) as [config|]; [|done].
    destruct (cfg_ipfs config) as [ipfs|]; [|done].
    destruct (updateIpfs E src dest _ fs) as [[[e|ipfsMap] fsu] tu]; [done|].
    injection Hprep as <- <- <-. split; [done|].
    exists (EvReadConfig (Path.join [src; "bos.config.json"]) network
            :: map (λ a, EvReadJson (Path.join [src; a]))
                 (aliasSources (Some config) src)
               ++ tu ++ [EvWalk (Path.join [src; "module"]);
                         EvWalk (Path.join [src; "widget"])]).
    simpl. f_equal. by rewrite <- !app_assoc. }
  assert (∀ p, EvRemove p ∈ tr0 ++ tw ++ map EvRemove
                             (stale (plan_original_build_files plan) new)
                             ++ [EvGenerateData src dest] →
               p ∈ plan_original_build_files plan ∧ p ∉ new) as Hremoved.
  { intros p [Hp|[Hp|[Hp|Hp]%elem_of_app]%elem_of_app]%elem_of_app.
    - eapply Forall_forall in Hsetup; [|exact Hp]. done.
    - eapply Forall_forall in Htw; [|exact Hp]. by destruct Htw.
    - apply list_elem_of_fmap in Hp as (q & [= ->] & Hq).
      apply list_elem_of_filter in Hq as [? ?]. done.
    - by apply list_elem_of_singleton in Hp. }
  split; [done|]. split.
  { destruct Hwalk as [before ->]. eexists before, _.
    split; [done|]. split; [done|].
    intros k p Hp. eapply Forall_forall in Hsetup; [|exact Hp]. done. }
  split.
  { intros p Hp Hnp. split.
    - rewrite reconciled_lookup. by rewrite bool_decide_eq_true_2.
    - apply elem_of_app. right. apply elem_of_app. right.
      apply elem_of_app. left. apply list_elem_of_fmap. exists p.
      split; [done|]. by apply list_elem_of_filter. }
  split.
  { intros p Hp. split.
    - rewrite reconciled_lookup.
      rewrite bool_decide_eq_false_2 by (by intros [_ ?]). by apply Hnew.
    - intros Hrm. by destruct (Hremoved p Hrm). }
  intros p Hunder. split.
  - rewrite reconciled_lookup. case_bool_decide as Hst; [by intros [? [=]]|].
    intros Hp. destruct (Hdom p Hp) as [Hp0|?]; [|done].
    destruct (decide (p ∈ new)) as [?|Hnp]; [done|].
    destruct Hst. split; [|done].
    rewrite Horig. by apply filesUnder_elem.
  - intros Hp. rewrite reconciled_lookup.
    rewrite bool_decide_eq_false_2 by (by intros [_ ?]). by apply Hnew.
Qed.

(** The specification's example: the output directory holds
    [A.module.js] and [B.jsx], the sources give [A.module.js] and [C.jsx];
    after the build [B.jsx] is gone and the other two are there. *)
Lemma reconcile_converges_witness :
  let fs := Demo.files [ ("app/bos.config.json", Text "{}");
                         ("app/module/A.js", Text "a");
                         ("app/widget/C.jsx", Text "c");
                         ("out/src/widget/A.module.js", Text "old a");
                         ("out/src/widget/B.jsx", Text "old b") ] in
  let run := buildApp Demo.env "app" "out" "mainnet" fs in
  run.1.2 !! "out/src/widget/B.jsx" = None
  ∧ is_Some (run.1.2 !! "out/src/widget/A.module.js")
  ∧ is_Some (run.1.2 !! "out/src/widget/C.jsx").
Proof.
  intros fs run.
  set (prep := prepare Demo.env "app" "out" "mainnet" fs).
  set (d := Demo.noPlan).
  destruct (reconcile_converges Demo.env "app" "out" "mainnet" fs
              (Demo.okOr [] run) run.1.2 run.2
              (Demo.okOr d prep) prep.1.2 prep.2)
    as (_ & _ & Hstale & Hnew & _).
  { apply run_eta. vm_compute. reflexivity. }
  { apply run_eta. vm_compute. reflexivity. }
  assert (plan_original_build_files (Demo.okOr d prep)
          = ["out/src/widget/A.module.js"; "out/src/widget/B.jsx"]) as Horig
    by (vm_compute; reflexivity).
  assert (newArtifacts Demo.env "app" "out" (Demo.okOr d prep)
          = ["out/src/widget/A.module.js"; "out/src/widget/C.jsx"]) as Hnews
    by (vm_compute; reflexivity).
  rewrite Horig, Hnews in *.
  split; [|split].
  - apply Hstale; [right; by left|]. by trace_absent.
  - apply Hnew. by left.
  - apply Hnew. right. by left.
Defined.

(** ** Module names (line 63) *)

Lemma prepare_plan E src dest network fs plan fs0 tr0 :
  prepare E src dest network fs = (inr plan, fs0, tr0) →
  plan_modules plan = catalog (Path.join [src; "module"]) fs0
  ∧ plan_widgets plan = catalog (Path.join [src; "widget"]) fs0
  ∧ p_modules (plan_params plan) = map (moduleName E src) (plan_modules plan)
  ∧ p_aliases (plan_params plan) = aliasTable E src network fs.
Proof.
  rewrite prepare_unfold. cbv zeta.
  destruct (loadedConfig E src network fs) as [config|]; [|done].
  destruct (cfg_ipfs config) as [ipfs|]; [|done].
  destruct (updateIpfs E src dest _ fs) as [[[e|ipfsMap] fsu] tu]; [done|].
  by intros [= <- <- <-].
Qed.

(** C8: the module-name list of the build context holds, for every
    discovered module in catalog order, what line 63 makes of its path.
    That is the path relative to the module root with the extension
    removed only when the extension's text first occurs at the end of the
    path: [file.replace(path.extname(file), "")] removes the FIRST
    occurrence of that text, so an earlier occurrence, in a directory name
    or inside the file name, is removed instead and the extension stays. *)
Theorem moduleName_removes_first_occurrence :
  let fs := Demo.files [ ("app/bos.config.json", Text "{}");
                         ("app/module/foo/bar.ts", Text "1");
                         ("app/module/chart.js/index.js", Text "2") ] in
  let prep := prepare Demo.env "app" "out" "mainnet" fs in
  Demo.succeeded prep = true
  ∧ plan_modules (Demo.okOr Demo.noPlan prep)
    = ["app/module/chart.js/index.js"; "app/module/foo/bar.ts"]
  ∧ p_modules (plan_params (Demo.okOr Demo.noPlan prep))
    = ["chart/index.js"; "foo/bar"]
  ∧ moduleName Demo.env "app" "app/module/foo.json.js" = "fooon.js"
  ∧ moduleName Demo.env "near.js" "near.js/module/a.js"
    = "../../near/module/a.js".
Proof. vm_compute. repeat split; reflexivity. Qed.

(** ** Module and widget artifacts do not collide *)

(** C10: every module artifact path ends in [.module.js] and every widget
    artifact path ends in [.jsx], so no module artifact path is a widget
    artifact path, also for a module and a widget with the same relative
    path minus extension; and in no run of the build does the widget loop
    write to a path the module loop wrote to. *)
Theorem module_and_widget_outputs_disjoint E src dest :
  (∀ file, ends_with ".module.js" (moduleOutputPath E src dest file))
  ∧ (∀ file, ends_with ".jsx" (widgetOutputPath E src dest file))
  ∧ (∀ m w, moduleOutputPath E src dest m ≠ widgetOutputPath E src dest w)
  ∧ (∀ network fs r fs' tr p,
       buildApp E src dest network fs = (r, fs', tr) →
       EvOutputFile Widget p ∈ tr → EvOutputFile Module p ∉ tr).
Proof.
  assert (∀ m w, moduleOutputPath E src dest m ≠ widgetOutputPath E src dest w)
    as Hne.
  { intros m w Heq.
    pose proof (ends_with_last_char ".module.js" _ ltac:(discriminate)
                  (moduleOutputPath_ends_with E src dest m)) as Hm.
    pose proof (ends_with_last_char ".jsx" _ ltac:(discriminate)
                  (widgetOutputPath_ends_with E src dest w)) as Hw.
    rewrite Heq, Hw in Hm. discriminate Hm. }
  split; [apply moduleOutputPath_ends_with|].
  split; [apply widgetOutputPath_ends_with|].
  split; [exact Hne|].
  intros network fs r fs' tr p. rewrite buildApp_unfold.
  destruct (prepare E src dest network fs) as [[[e|plan] fs0] tr0] eqn:Hprep;
    pose proof (prepare_trace _ _ _ _ _ _ _ _ Hprep) as Hsetup.
  { intros [= <- <- <-] Hp. eapply Forall_forall in Hsetup; [|exact Hp]. done. }
  destruct (transpileAndReconcile E src dest plan fs0)
    as [[r1 fs1] tr1] eqn:Hrun.
  intros [= <- <- <-].
  apply transpileAndReconcile_phases in Hrun
    as (trm & trw & trr & Htr & _ & _ & _ & _ & _ & _ & Hmod & Hwid).
  intros [Hw|Hw]%elem_of_app [Hm|Hm]%elem_of_app;
    try (eapply Forall_forall in Hsetup; [|eassumption]; done).
  apply Hmod, list_elem_of_fmap in Hm as (m & -> & _).
  apply Hwid, list_elem_of_fmap in Hw as (w & Hw & _).
  by destruct (Hne m w).
Qed.

(** A module and a widget with the same relative path minus extension,
    built together: two artifacts, both on disk. *)
Lemma module_and_widget_outputs_disjoint_witness :
  let fs := Demo.files [ ("app/bos.config.json", Text "{}");
                         ("app/module/x/y.js", Text "m");
                         ("app/widget/x/y.js", Text "w") ] in
  let run := buildApp Demo.env "app" "out" "mainnet" fs in
  (EvOutputFile Module "out/src/widget/x.y.jsx" ∉ run.2)
  ∧ (moduleOutputPath Demo.env "app" "out" "app/module/x/y.js"
     ≠ widgetOutputPath Demo.env "app" "out" "app/widget/x/y.js").
Proof.
  intros fs run.
  destruct (module_and_widget_outputs_disjoint Demo.env "app" "out")
    as (_ & _ & Hne & Hrun).
  split; [|apply Hne].
  apply (Hrun "mainnet" fs run.1.1 run.1.2 run.2 _ (run_triple run)).
  assert (run.2
          = [EvReadConfig "app/bos.config.json" "mainnet";
             EvReadJson "app/app/aliases.json"; EvReadJson "app/ipfs.json";
             EvWalk "app/ipfs"; EvWalk "app/module"; EvWalk "app/widget";
             EvWalk "out/src/widget"; EvReadFile Module "app/module/x/y.js";
             EvTranspile Module "app/module/x/y.js" None;
             EvOutputFile Module "out/src/widget/x.y.module.js";
             EvReadFile Widget "app/widget/x/y.js";
             EvTranspile Widget "app/widget/x/y.js" None;
             EvOutputFile Widget "out/src/widget/x.y.jsx";
             EvGenerateData "app" "out"]) as ->
    by (vm_compute; reflexivity).
  do 12 right. by left.
Defined.


(** * Further properties *)

(** ** The publisher: what is uploaded and what is written *)

Section UploadLoopExact.
Context (E : Env) (pwd : string) (options : UploadToIPFSOptions).
Context (ledger : gmap string string).

Lemma set_keeps_keys (o : gmap string string) k v j :
  is_Some (o !! j) → is_Some (JsObject.set o k v !! j).
Proof.
  intros Hj. rewrite set_lookup. destruct (decide (k = j)) as [<-|]; [|done].
  destruct Hj as [w Hw]. rewrite Hw.
  rewrite bool_decide_eq_false_2, andb_false_r by done. by eauto.
Qed.

(** A loop that completes has called the store once for every listed
    path without a truthy entry, in order, and has collected an identifier
    for each of them. *)
Lemma upload_loop_ok files ups fs ups' fs' tl :
  forEach files ups (uploadIfNew E pwd options ledger) fs = (inr ups', fs', tl) →
  tl = uploadCalls pwd (unpublished ledger files)
  ∧ (∀ k, is_Some (ups !! k) → is_Some (ups' !! k))
  ∧ (∀ f, f ∈ files → JsObject.truthy ledger f = false → f ≠ "__proto__" →
          is_Some (ups' !! f)).
Proof.
  revert ups fs tl.
  induction files as [|f files IH]; intros ups fs tl Hrun.
  { injection Hrun as <- <- <-. split; [done|]. split; [done|].
    by intros ? ?%elem_of_nil. }
  cbn [forEach] in Hrun. apply bind_run in Hrun
    as [(e & _ & [=])|(a & fs1 & t1 & t2 & Hstep & Hrest & ->)].
  apply IH in Hrest as (-> & Hkeep & Hall).
  unfold uploadIfNew in Hstep. unfold unpublished. rewrite filter_cons.
  destruct (JsObject.truthy ledger f) eqn:Hf; simpl in Hstep.
  - injection Hstep as <- <- <-.
    rewrite decide_False by done.
    split; [done|]. split; [done|].
    intros g [->|Hg]%elem_of_cons Hfalsy Hne; [congruence|by apply Hall].
  - unfold bind, uploadToIPFS, ret in Hstep.
    destruct (publish E (Path.join [pwd; "ipfs"; f])
                (fs !! Path.join [pwd; "ipfs"; f]) options) as [e|cid];
      [done|].
    injection Hstep as <- <- <-.
    rewrite decide_True by done.
    split; [done|]. split.
    + intros k Hk. by apply Hkeep, set_keeps_keys.
    + intros g [->|Hg]%elem_of_cons Hfalsy Hne; [|by apply Hall].
      apply Hkeep. rewrite set_lookup, decide_True by done.
      apply String.eqb_neq in Hne. rewrite Hne. by eauto.
Qed.

(** A loop that throws stops at the first upload the store refuses: the
    error is the store's, and no call follows. *)
Lemma upload_loop_fail files ups fs e fs' tl :
  forEach files ups (uploadIfNew E pwd options ledger) fs = (inl e, fs', tl) →
  ∃ before f after,
    files = before ++ f :: after
    ∧ JsObject.truthy ledger f = false
    ∧ publish E (Path.join [pwd; "ipfs"; f])
        (fs !! Path.join [pwd; "ipfs"; f]) options = inl e
    ∧ tl = uploadCalls pwd (unpublished ledger before)
           ++ [EvUpload (Path.join [pwd; "ipfs"; f])].
Proof.
  revert ups fs tl.
  induction files as [|f files IH]; intros ups fs tl Hrun; [done|].
  pose proof Hrun as Hfs. apply upload_loop_spec in Hfs as (-> & _ & _).
  cbn [forEach] in Hrun.
  apply bind_run in Hrun
    as [(e' & Hstep & [= <-])|(a & fs1 & t1 & t2 & Hstep & Hrest & ->)].
  - unfold uploadIfNew in Hstep.
    destruct (JsObject.truthy ledger f) eqn:Hf; simpl in Hstep; [done|].
    unfold bind, uploadToIPFS, ret in Hstep.
    destruct (publish E (Path.join [pwd; "ipfs"; f])
                (fs !! Path.join [pwd; "ipfs"; f]) options) as [e'|cid] eqn:Hp;
      [|done].
    injection Hstep as <- <-. by exists [], f, files.
  - assert (fs1 = fs) as ->.
    { unfold uploadIfNew in Hstep.
      destruct (JsObject.truthy ledger f); simpl in Hstep;
        [by injection Hstep as _ <- _|].
      unfold bind, uploadToIPFS, ret in Hstep.
      destruct (publish E (Path.join [pwd; "ipfs"; f])
                  (fs !! Path.join [pwd; "ipfs"; f]) options); [done|].
      by injection Hstep as _ <- _. }
    apply IH in Hrest as (before & g & after & -> & Hg & Hpub & ->).
    exists (f :: before), g, after. split; [done|]. split; [done|].
    split; [done|].
    unfold uploadIfNew in Hstep. unfold unpublished. rewrite filter_cons.
    destruct (JsObject.truthy ledger f) eqn:Hf; simpl in Hstep.
    + injection Hstep as _ <-. by rewrite decide_False.
    + unfold bind, uploadToIPFS, ret in Hstep.
      destruct (publish E (Path.join [pwd; "ipfs"; f])
                  (fs !! Path.join [pwd; "ipfs"; f]) options); [done|].
      injection Hstep as _ <-. by rewrite decide_True.
Qed.

End UploadLoopExact.



(** X2: when the publisher returns, the ledger a later run will load is
    the returned map; either nothing was touched, or the ledger file and
    its mirror in the destination both hold the returned map and no other
    file changed. *)
Theorem updateIpfs_ledger_in_sync E pwd dest options fs m fs' tr :
  updateIpfs E pwd dest options fs = (inr m, fs', tr) →
  loadedLedger pwd fs' = m
  ∧ (fs' = fs
     ∨ (fs' !! Path.join [pwd; "ipfs.json"] = Some (Json m)
        ∧ fs' !! Path.join [dest; "ipfs.json"] = Some (Json m)
        ∧ ∀ q, q ≠ Path.join [pwd; "ipfs.json"] →
               q ≠ Path.join [dest; "ipfs.json"] → fs' !! q = fs !! q)).
Proof.
  rewrite updateIpfs_unfold. cbv zeta.
  destruct (forEach (assetPaths E pwd fs) ∅
              (uploadIfNew E pwd options (loadedLedger pwd fs)) fs)
    as [[[e|ups] fs1] tl]; [done|].
  destruct (0 <? size ups)%nat eqn:Hsize; intros [= <- <- <-].
  - assert (<[Path.join [dest; "ipfs.json"] :=
                Json (JsObject.assign (loadedLedger pwd fs) ups)]>
              (<[Path.join [pwd; "ipfs.json"] :=
                   Json (JsObject.assign (loadedLedger pwd fs) ups)]> fs)
            !! Path.join [pwd; "ipfs.json"]
            = Some (Json (JsObject.assign (loadedLedger pwd fs) ups))) as Hlp.
    { destruct (decide (Path.join [dest; "ipfs.json"]
                        = Path.join [pwd; "ipfs.json"])) as [->|Hne].
      - by rewrite lookup_insert_eq.
      - by rewrite lookup_insert_ne, lookup_insert_eq. }
    split; [unfold loadedLedger at 1; by rewrite Hlp|].
    right. split; [done|]. split; [by rewrite lookup_insert_eq|].
    intros q Hq1 Hq2. by rewrite !lookup_insert_ne.
  - apply Nat.ltb_ge, Nat.le_0_r, map_size_empty_inv in Hsize as ->.
    rewrite assign_empty_r. by split; [|left].
Qed.

Lemma updateIpfs_ledger_in_sync_witness :
  let fs := Demo.files [ ("app/ipfs.json", Json {["a.png" := "Qm1"]});
                         ("app/ipfs/a.png", Text "A");
                         ("app/ipfs/b.png", Text "B") ] in
  let run := updateIpfs Demo.env "app" "out" Demo.options fs in
  loadedLedger "app" run.1.2 = Demo.okOr ∅ run.
Proof.
  intros fs run.
  apply (updateIpfs_ledger_in_sync Demo.env "app" "out" Demo.options fs
           (Demo.okOr ∅ run) run.1.2 run.2).
  apply run_eta. vm_compute. reflexivity.
Defined.

(** X3: the calls of a publisher run that returns are: the read of the
    ledger, the walk of the asset directory, one upload for every
    enumerated path without a truthy ledger entry, in the order of the
    walk, and then either nothing, the file system being left as it was, or
    the write of the ledger and its copy to the destination.  When no path
    lacks a truthy entry nothing is written. *)
Theorem updateIpfs_calls E pwd dest options fs m fs' tr :
  updateIpfs E pwd dest options fs = (inr m, fs', tr) →
  let lp := Path.join [pwd; "ipfs.json"] in
  let dp := Path.join [dest; "ipfs.json"] in
  let new := unpublished (loadedLedger pwd fs) (assetPaths E pwd fs) in
  ∃ writes,
    tr = [EvReadJson lp; EvWalk (Path.join [pwd; "ipfs"])]
         ++ uploadCalls pwd new ++ writes
    ∧ ((writes = [] ∧ fs' = fs)
       ∨ (writes = [EvWriteJson lp; EvCopy lp dp]
          ∧ fs' = <[dp := Json m]> (<[lp := Json m]> fs)))
    ∧ (new = [] → writes = []).
Proof.
  rewrite updateIpfs_unfold. cbv zeta.
  destruct (forEach (assetPaths E pwd fs) ∅
              (uploadIfNew E pwd options (loadedLedger pwd fs)) fs)
    as [[[e|ups] fs1] tl] eqn:Hloop; [done|].
  pose proof (upload_loop_spec _ _ _ _ _ _ _ _ _ _ Hloop) as (_ & _ & Hups).
  apply upload_loop_ok in Hloop as (-> & _ & _).
  destruct (0 <? size ups)%nat eqn:Hsize; intros [= <- <- <-].
  - eexists. split; [reflexivity|]. split; [by right|].
    intros Hnone. exfalso.
    assert (ups = ∅) as ->; [|by rewrite map_size_empty in Hsize].
    apply map_eq. intros k. rewrite lookup_empty.
    destruct (ups !! k) as [c|] eqn:Hk; [|done].
    destruct (Hups ups eq_refl k) as [Hin|[Hin Hf]]; [by eauto| |].
    + rewrite lookup_empty in Hin. by destruct Hin.
    + assert (k ∈ unpublished (loadedLedger pwd fs) (assetPaths E pwd fs)) as Hk'
        by (by apply list_elem_of_filter).
      rewrite Hnone in Hk'. by apply elem_of_nil in Hk'.
  - exists []. rewrite app_nil_r. split; [done|]. split; [by left|done].
Qed.

Lemma updateIpfs_calls_witness :
  let fs := Demo.files [ ("app/ipfs.json", Json {["a.png" := "Qm1"]});
                         ("app/ipfs/a.png", Text "A");
                         ("app/ipfs/b.png", Text "B") ] in
  let run := updateIpfs Demo.env "app" "out" Demo.options fs in
  ∃ writes,
    run.2 = [EvReadJson "app/ipfs.json"; EvWalk "app/ipfs"]
            ++ uploadCalls "app" ["b.png"] ++ writes.
Proof.
  intros fs run.
  destruct (updateIpfs_calls Demo.env "app" "out" Demo.options fs
              (Demo.okOr ∅ run) run.1.2 run.2) as (writes & Htr & _).
  { apply run_eta. vm_compute. reflexivity. }
  exists writes.
  assert (unpublished (loadedLedger "app" fs) (assetPaths Demo.env "app" fs)
          = ["b.png"]) as Hnew by (vm_compute; reflexivity).
  rewrite Hnew in Htr. exact Htr.
Defined.



(** ** The transpilation loops: calls, contents and logs *)

Section BatchExact.
Context (E : Env) (k : Kind) (outp : string → string).
Context (src : string) (plan : BuildPlan).

(** A loop that completes has made, for each of its files in order, the
    three calls of a turn. *)
Lemma batch_ok_trace files st fs st' fs' tr :
  forEach files st (transpileUnit E k outp src plan) fs = (inr st', fs', tr) →
  tr = flat_map (unitEvents k outp) files.
Proof.
  revert st fs tr. induction files as [|file files IH]; intros st fs tr Hrun.
  { by injection Hrun as _ _ <-. }
  cbn [forEach] in Hrun. apply bind_run in Hrun
    as [(e & _ & [=])|(st1 & fs1 & t1 & t2 & Hunit & Hrest & ->)].
  apply transpileUnit_run in Hunit
    as [(? & [=] & _)|(? & ? & _ & _ & _ & _ & ->)].
  apply IH in Hrest as ->. done.
Qed.

(** Whatever its outcome, a loop's calls concern its own files. *)
Lemma batch_units files st fs r fs' tr :
  forEach files st (transpileUnit E k outp src plan) fs = (r, fs', tr) →
  ∀ ev, ev ∈ tr →
    ∃ f, f ∈ files
         ∧ (ev = EvReadFile k f ∨ (∃ o, ev = EvTranspile k f o)
            ∨ ev = EvOutputFile k (outp f)).
Proof.
  revert st fs r fs' tr.
  induction files as [|file files IH]; intros st fs r fs' tr Hrun ev Hev.
  { injection Hrun as _ _ <-. by apply elem_of_nil in Hev. }
  cbn [forEach] in Hrun.
  assert (∀ t, ev ∈ t →
            (t = [EvReadFile k file]
             ∨ (∃ e, t = [EvReadFile k file; EvTranspile k file (Some e)])
             ∨ t = unitEvents k outp file) →
            ∃ f, f ∈ file :: files
                 ∧ (ev = EvReadFile k f ∨ (∃ o, ev = EvTranspile k f o)
                    ∨ ev = EvOutputFile k (outp f))) as Hhere.
  { intros t Ht Hshape. exists file. split; [by left|].
    destruct Hshape as [->|[[e ->]| ->]]; unfold unitEvents in Ht;
      repeat (apply elem_of_cons in Ht as [->|Ht]; [by eauto 6|]);
      by apply elem_of_nil in Ht. }
  apply bind_run in Hrun
    as [(e & Hunit & ->)|(st1 & fs1 & t1 & t2 & Hunit & Hrest & ->)].
  - apply transpileUnit_run in Hunit
      as [(e' & _ & _ & [->| ->])|(? & ? & _ & _ & [=] & _)];
      apply (Hhere _ Hev); by eauto.
  - apply transpileUnit_run in Hunit
      as [(? & [=] & _)|(? & ? & _ & _ & _ & _ & ->)].
    apply elem_of_app in Hev as [Hev|Hev].
    + apply (Hhere _ Hev). by auto.
    + destruct (IH _ _ _ _ _ Hrest ev Hev) as (f & Hf & Hshape).
      exists f. split; [by right|done].
Qed.

(** A loop that throws has made at least one call. *)
Lemma batch_fail_calls files st fs e fs' tr :
  forEach files st (transpileUnit E k outp src plan) fs = (inl e, fs', tr) →
  tr ≠ [].
Proof.
  destruct files as [|file files]; [done|].
  cbn [forEach]. intros Hrun. apply bind_run in Hrun
    as [(e' & Hunit & _)|(st1 & fs1 & t1 & t2 & Hunit & _ & ->)].
  - apply transpileUnit_run in Hunit
      as [(? & _ & _ & [->| ->])|(? & ? & _ & _ & [=] & _)]; done.
  - apply transpileUnit_run in Hunit
      as [(? & [=] & _)|(? & ? & _ & _ & _ & _ & ->)]. done.
Qed.



End BatchExact.

(** ** The build after [prepare]: the ways it can end *)

Lemma transpileAndReconcile_cases E src dest plan fs0 r fs' tr :
  transpileAndReconcile E src dest plan fs0 = (r, fs', tr) →
  let mloop := forEach (plan_modules plan) ([], [])
                 (transpileUnit E Module (moduleOutputPath E src dest) src plan)
                 fs0 in
  (∃ e, mloop = (inl e, fs', tr) ∧ r = inl e)
  ∨ (∃ st fsm trm,
       mloop = (inr st, fsm, trm)
       ∧ let wloop := forEach (plan_widgets plan) st
                        (transpileUnit E Widget (widgetOutputPath E src dest)
                           src plan) fsm in
         (∃ e trw, wloop = (inl e, fs', trw) ∧ r = inl e ∧ tr = trm ++ trw)
         ∨ (∃ logs nbf fsw trw,
              wloop = (inr (logs, nbf), fsw, trw)
              ∧ fs' = reconciled (plan_original_build_files plan) nbf fsw
              ∧ ((cfg_accounts (plan_config plan) = None
                  ∧ r = inl (TypeError "deploy")
                  ∧ tr = trm ++ trw
                         ++ map EvRemove
                              (stale (plan_original_build_files plan) nbf))
                 ∨ (∃ accounts,
                      cfg_accounts (plan_config plan) = Some accounts
                      ∧ r = match metadata E src dest (deploy accounts) with
                            | Some e => inl e
                            | None => inr logs
                            end
                      ∧ tr = trm ++ trw
                             ++ map EvRemove
                                  (stale (plan_original_build_files plan) nbf)
                             ++ [EvGenerateData src dest])))).
Proof.
  rewrite transpileAndReconcile_unfold.
  rewrite transpileModule_unit, transpileWidget_unit. cbv zeta.
  destruct (forEach (plan_modules plan) ([], []) _ fs0)
    as [[[e|st] fsm] trm].
  { intros [= <- <- <-]. left. by exists e. }
  intros Hrun. right. exists st, fsm, trm. split; [done|].
  destruct (forEach (plan_widgets plan) st _ fsm)
    as [[[e|[logs nbf]] fsw] trw].
  { injection Hrun as <- <- <-. left. by exists e, trw. }
  right. exists logs, nbf, fsw, trw. split; [done|].
  destruct (cfg_accounts (plan_config plan)) as [accounts|];
    injection Hrun as <- <- <-; (split; [done|]).
  - right. by exists accounts.
  - by left.
Qed.

(** Both loops went through: the recorded paths are the new artifact
    paths, all of them are on disk, and nothing else appeared. *)
Lemma loops_done E src dest plan fs0 st fsm trm logs nbf fsw trw :
  forEach (plan_modules plan) ([], [])
    (transpileUnit E Module (moduleOutputPath E src dest) src plan) fs0
  = (inr st, fsm, trm) →
  forEach (plan_widgets plan) st
    (transpileUnit E Widget (widgetOutputPath E src dest) src plan) fsm
  = (inr (logs, nbf), fsw, trw) →
  nbf = newArtifacts E src dest plan
  ∧ trm = flat_map (unitEvents Module (moduleOutputPath E src dest))
            (plan_modules plan)
  ∧ trw = flat_map (unitEvents Widget (widgetOutputPath E src dest))
            (plan_widgets plan)
  ∧ (∀ p, p ∈ newArtifacts E src dest plan → is_Some (fsw !! p))
  ∧ (∀ p, is_Some (fsw !! p) →
          is_Some (fs0 !! p) ∨ p ∈ newArtifacts E src dest plan).
Proof.
  intros Hm Hw.
  pose proof (batch_ok_trace _ _ _ _ _ _ _ _ _ _ _ Hm) as Htm.
  pose proof (batch_ok_trace _ _ _ _ _ _ _ _ _ _ _ Hw) as Htw.
  apply batch_spec in Hm as (_ & _ & Hmmono & Hmdom & Hmout & Hmok).
  apply batch_spec in Hw as (_ & _ & Hwmono & Hwdom & Hwout & Hwok).
  destruct (Hmok st eq_refl) as [Hst Hmall]. simpl in Hst.
  destruct (Hwok _ eq_refl) as [Hnbf Hwall]. simpl in Hnbf.
  rewrite Hst in Hnbf. fold (newArtifacts E src dest plan) in Hnbf.
  split; [done|]. split; [done|]. split; [done|]. split.
  - intros p [Hp|Hp]%elem_of_app.
    + apply list_elem_of_fmap in Hp as (m & -> & Hmod).
      apply Hwmono. by eapply Hmout, Hmall.
    + apply list_elem_of_fmap in Hp as (w & -> & Hwid).
      by eapply Hwout, Hwall.
  - intros p Hp. unfold newArtifacts. rewrite elem_of_app.
    destruct (Hwdom p Hp) as [Hp'|Hp'].
    + destruct (Hmdom p Hp') as [?|Hp'']; [by left|].
      right. left. by eapply Hmout.
    + right. right. by eapply Hwout.
Qed.

Lemma prepare_snapshot E src dest network fs plan fs0 tr0 :
  prepare E src dest network fs = (inr plan, fs0, tr0) →
  plan_original_build_files plan
  = filesUnder (Path.join [dest; "src"; "widget"]) fs0.
Proof.
  rewrite prepare_unfold. cbv zeta.
  destruct (loadedConfig E src network fs) as [config|]; [|done].
  destruct (cfg_ipfs config) as [ipfs|]; [|done].
  destruct (updateIpfs E src dest _ fs) as [[[e|ipfsMap] fsu] tu]; [done|].
  by intros [= <- <- <-].
Qed.

Lemma catalog_elem root (fs : FS) f :
  f ∈ catalog root fs
  ↔ isSourceFile f = true ∧ is_under root f = true ∧ is_Some (fs !! f).
Proof.
  unfold catalog. rewrite list_elem_of_filter, filesUnder_elem. tauto.
Qed.

(** ** Failing before transpilation *)

(** X5: when the build fails before the catalog is taken, the build ends
    with that error, nothing on disk has changed and no call other than
    reads, walks and uploads was made; the error is the type error of line
    37 for a configuration that did not load or has no [ipfs] section, or
    an error the content store raised for an upload. *)
Theorem prepare_failure_leaves_disk E src dest network fs e fs' tr :
  prepare E src dest network fs = (inl e, fs', tr) →
  fs' = fs
  ∧ buildApp E src dest network fs = (inl e, fs, tr)
  ∧ Forall (λ ev, writes_disk ev = false ∧ event_kind ev = None) tr
  ∧ ((loadedConfig E src network fs = None ∧ e = TypeError "ipfs")
     ∨ (∃ config, loadedConfig E src network fs = Some config
                  ∧ cfg_ipfs config = None ∧ e = TypeError "uploadApi")
     ∨ (∃ p c options, publish E p c options = inl e)).
Proof.
  intros Hprep.
  assert (fs' = fs
          ∧ Forall (λ ev, writes_disk ev = false ∧ event_kind ev = None) tr
          ∧ ((loadedConfig E src network fs = None ∧ e = TypeError "ipfs")
             ∨ (∃ config, loadedConfig E src network fs = Some config
                          ∧ cfg_ipfs config = None ∧ e = TypeError "uploadApi")
             ∨ (∃ p c options, publish E p c options = inl e)))
    as (-> & Hquiet & Hcause).
  { rewrite prepare_unfold in Hprep. cbv zeta in Hprep.
    assert (Forall (λ ev, writes_disk ev = false ∧ event_kind ev = None)
              (map (λ a, EvReadJson (Path.join [src; a]))
                 (aliasSources (loadedConfig E src network fs) src))) as Hal.
    { apply Forall_forall. intros ev Hev.
      apply (list_elem_of_fmap (λ a, EvReadJson (Path.join [src; a]))) in Hev
        as (a & -> & _). done. }
    destruct (loadedConfig E src network fs) as [config|].
    2:{ injection Hprep as <- <- <-. split; [done|]. split; [|by left].
        by constructor. }
    destruct (cfg_ipfs config) as [ipfs|] eqn:Hipfs.
    2:{ injection Hprep as <- <- <-. split; [done|]. split.
        - by constructor.
        - right. left. by exists config. }
    destruct (updateIpfs E src dest _ fs) as [[[e'|ipfsMap] fsu] tu] eqn:Hup;
      [|done].
    injection Hprep as <- <- <-.
    rewrite updateIpfs_unfold in Hup. cbv zeta in Hup.
    destruct (forEach (assetPaths E src fs) ∅ _ fs)
      as [[[e''|ups] fs1] tl] eqn:Hloop;
      [|by destruct (0 <? size ups)%nat].
    injection Hup as <- <- <-.
    apply upload_loop_fail in Hloop as (before & f & after & _ & _ & Hpub & ->).
    split; [done|]. split; [|right; right; by eauto].
    constructor; [done|]. apply Forall_app. split; [done|].
    repeat constructor. apply Forall_app. split; [|by repeat constructor].
    apply Forall_forall. intros ev Hev. unfold uploadCalls in Hev.
    apply list_elem_of_fmap in Hev as (a & -> & _). done. }
  split; [done|]. split; [|done].
  by rewrite buildApp_unfold, Hprep.
Qed.

Lemma prepare_failure_leaves_disk_witness :
  let fs := Demo.files [ ("app/bos.config.json", Text "{}");
                         ("app/module/a.js", Text "A");
                         ("app/ipfs/a.png", Text "A");
                         ("app/ipfs/b.png", Text "B") ] in
  let run := prepare DemoX.envStoreDown "app" "out" "mainnet" fs in
  run.1.2 = fs.
Proof.
  intros fs run.
  refine (proj1 (prepare_failure_leaves_disk DemoX.envStoreDown "app" "out"
                   "mainnet" fs (Failure "store down") run.1.2 run.2 _)).
  assert (run.1.1 = inl (Failure "store down")) as Hr
    by (vm_compute; reflexivity).
  rewrite (run_triple run) at 1. by rewrite Hr.
Defined.

(** ** The outcomes of a build *)

Lemma buildApp_inv E src dest network fs r fs' tr :
  buildApp E src dest network fs = (r, fs', tr) →
  (∃ e, prepare E src dest network fs = (inl e, fs', tr) ∧ r = inl e)
  ∨ (∃ plan fs0 tr0 t,
       prepare E src dest network fs = (inr plan, fs0, tr0)
       ∧ transpileAndReconcile E src dest plan fs0 = (r, fs', t)
       ∧ tr = tr0 ++ t).
Proof.
  rewrite buildApp_unfold.
  destruct (prepare E src dest network fs) as [[[e|plan] fs0] tr0].
  - intros [= <- <- <-]. left. by exists e.
  - destruct (transpileAndReconcile E src dest plan fs0) as [[r' fs''] t]
      eqn:Hrun.
    intros [= <- <- <-]. right. by exists plan, fs0, tr0, t.
Qed.

Lemma reconciled_final original new (fsw : FS) :
  (∀ p, p ∈ new → is_Some (fsw !! p)) →
  (∀ p, p ∈ new → is_Some (reconciled original new fsw !! p))
  ∧ (∀ p, p ∈ original → p ∉ new → reconciled original new fsw !! p = None).
Proof.
  intros Hnew. split.
  - intros p Hp. rewrite reconciled_lookup.
    rewrite bool_decide_eq_false_2; [by apply Hnew|]. by intros [_ ?].
  - intros p Ho Hn. rewrite reconciled_lookup.
    by rewrite bool_decide_eq_true_2.
Qed.

Lemma unitCalls_kind E src dest plan :
  Forall (λ ev, is_Some (event_kind ev)) (unitCalls E src dest plan).
Proof.
  apply Forall_app. split; apply Forall_forall; intros ev Hev;
    apply list_elem_of_In, in_flat_map in Hev as (f & _ & Hev);
    apply list_elem_of_In in Hev; unfold unitEvents in Hev;
    repeat (apply elem_of_cons in Hev as [->|Hev]; [by eexists|]);
    by apply elem_of_nil in Hev.
Qed.

(** Either a loop stopped at a failing unit, or both completed and the
    stale artifacts were removed; in the second case the build then fails
    for want of a deploy account, or ends with the metadata generator. *)
Lemma build_outcomes E src dest plan fs0 r fs' t :
  transpileAndReconcile E src dest plan fs0 = (r, fs', t) →
  (∃ e, r = inl e ∧ t ≠ [] ∧ Forall (λ ev, is_Some (event_kind ev)) t)
  ∨ (∃ fsw,
       fs' = reconciled (plan_original_build_files plan)
               (newArtifacts E src dest plan) fsw
       ∧ (∀ p, p ∈ newArtifacts E src dest plan → is_Some (fsw !! p))
       ∧ (∀ p, is_Some (fsw !! p) →
               is_Some (fs0 !! p) ∨ p ∈ newArtifacts E src dest plan)
       ∧ ((cfg_accounts (plan_config plan) = None
           ∧ r = inl (TypeError "deploy")
           ∧ t = unitCalls E src dest plan
                 ++ map EvRemove
                      (stale (plan_original_build_files plan)
                         (newArtifacts E src dest plan)))
          ∨ (∃ accounts logs,
               cfg_accounts (plan_config plan) = Some accounts
               ∧ r = match metadata E src dest (deploy accounts) with
                     | Some e => inl e
                     | None => inr logs
                     end
               ∧ t = unitCalls E src dest plan
                     ++ map EvRemove
                          (stale (plan_original_build_files plan)
                             (newArtifacts E src dest plan))
                     ++ [EvGenerateData src dest]))).
Proof.
  intros Hrun. apply transpileAndReconcile_cases in Hrun. cbv zeta in Hrun.
  destruct Hrun as [(e & Hm & ->)|(st & fsm & trm & Hm & Hrun)].
  { left. exists e. split; [done|]. split; [by eapply batch_fail_calls|].
    apply batch_spec in Hm as (Hk & _).
    eapply Forall_impl; [exact Hk|]. intros ev ->. by eexists. }
  destruct Hrun as [(e & trw & Hw & -> & ->)
                   |(logs & nbf & fsw & trw & Hw & -> & Hend)].
  { left. exists e. split; [done|]. split.
    - intros [_ Hnil]%app_eq_nil. by eapply batch_fail_calls.
    - apply batch_spec in Hm as (Hmk & _). apply batch_spec in Hw as (Hwk & _).
      apply Forall_app. split;
        (eapply Forall_impl; [eassumption|]); intros ev ->; by eexists. }
  destruct (loops_done _ _ _ _ _ _ _ _ _ _ _ _ Hm Hw)
    as (-> & -> & -> & Hnew & Hdom).
  right. exists fsw. split; [done|]. split; [done|]. split; [done|].
  destruct Hend as [(Hacc & -> & ->)|(accounts & Hacc & -> & ->)].
  - left. split; [done|]. split; [done|]. unfold unitCalls.
    by rewrite <- app_assoc.
  - right. exists accounts, logs. split; [done|]. split; [done|].
    unfold unitCalls. by rewrite <- app_assoc.
Qed.

(** The calls of kind [k] concern the units catalogued for [k]. *)
Lemma build_units E src dest plan fs0 r fs' t ev k :
  transpileAndReconcile E src dest plan fs0 = (r, fs', t) →
  ev ∈ t → event_kind ev = Some k →
  ∃ f, f ∈ match k with
           | Module => plan_modules plan
           | Widget => plan_widgets plan
           end
       ∧ (ev = EvReadFile k f ∨ (∃ o, ev = EvTranspile k f o)
          ∨ ev = EvOutputFile k
                   (match k with
                    | Module => moduleOutputPath E src dest
                    | Widget => widgetOutputPath E src dest
                    end f)).
Proof.
  intros Hrun Hev Hk. apply transpileAndReconcile_cases in Hrun.
  cbv zeta in Hrun.
  assert (∀ k' outp files st fs r fs' tr,
            forEach files st (transpileUnit E k' outp src plan) fs
            = (r, fs', tr) →
            ev ∈ tr →
            k' = k
            ∧ ∃ f, f ∈ files
                   ∧ (ev = EvReadFile k f ∨ (∃ o, ev = EvTranspile k f o)
                      ∨ ev = EvOutputFile k (outp f))) as Hloop.
  { intros k' outp files st fs1 r1 fs1' tr1 Hl Hin.
    destruct (batch_units _ _ _ _ _ _ _ _ _ _ _ Hl ev Hin)
      as (f & Hf & Hshape).
    assert (k' = k) as <-.
    { destruct Hshape as [->|[[o ->]| ->]]; simpl in Hk; congruence. }
    split; [done|]. by exists f. }
  assert (∀ l, ev ∈ map EvRemove l → False) as Hrem.
  { intros l (p & -> & _)%list_elem_of_fmap. done. }
  destruct Hrun as [(e & Hm & ->)|(st & fsm & trm & Hm & Hrun)].
  { by destruct (Hloop _ _ _ _ _ _ _ _ Hm Hev) as [<- ?]. }
  destruct Hrun as [(e & trw & Hw & -> & ->)
                   |(logs & nbf & fsw & trw & Hw & -> & Hend)].
  { apply elem_of_app in Hev as [Hev|Hev].
    - by destruct (Hloop _ _ _ _ _ _ _ _ Hm Hev) as [<- ?].
    - by destruct (Hloop _ _ _ _ _ _ _ _ Hw Hev) as [<- ?]. }
  assert (ev ∈ trm ∨ ev ∈ trw) as [Hev'|Hev'].
  { destruct Hend as [(_ & _ & ->)|(accounts & _ & _ & ->)];
      repeat (apply elem_of_app in Hev as [Hev|Hev]); auto.
    - by destruct (Hrem _ Hev).
    - by destruct (Hrem _ Hev).
    - apply list_elem_of_singleton in Hev as ->. done. }
  - by destruct (Hloop _ _ _ _ _ _ _ _ Hm Hev') as [<- ?].
  - by destruct (Hloop _ _ _ _ _ _ _ _ Hw Hev') as [<- ?].
Qed.

Lemma prepare_config E src dest network fs plan fs0 tr0 :
  prepare E src dest network fs = (inr plan, fs0, tr0) →
  loadedConfig E src network fs = Some (plan_config plan)
  ∧ p_config (plan_params plan) = plan_config plan
  ∧ ∃ ipfs tp,
      cfg_ipfs (plan_config plan) = Some ipfs
      ∧ p_ipfsGateway (plan_params plan) = gateway ipfs
      ∧ updateIpfs E src dest
          {| uploadAPI_url := uploadApi ipfs;
             uploadAPI_headers := uploadApiHeaders ipfs |} fs
        = (inr (p_ipfsMap (plan_params plan)), fs0, tp)
      ∧ tr0 = EvReadConfig (Path.join [src; "bos.config.json"]) network
              :: map (λ a, EvReadJson (Path.join [src; a]))
                   (aliasSources (Some (plan_config plan)) src)
              ++ tp
              ++ [EvWalk (Path.join [src; "module"]);
                  EvWalk (Path.join [src; "widget"]);
                  EvWalk (Path.join [dest; "src"; "widget"])].
Proof.
  rewrite prepare_unfold. cbv zeta.
  destruct (loadedConfig E src network fs) as [config|]; [|done].
  destruct (cfg_ipfs config) as [ipfs|] eqn:Hipfs; [|done].
  destruct (updateIpfs E src dest _ fs) as [[[e|ipfsMap] fsu] tu] eqn:Hup;
    [done|].
  intros [= <- <- <-]. simpl. split; [done|]. split; [done|].
  by exists ipfs, tu.
Qed.


Lemma setup_not_metadata tr s d :
  Forall (λ ev, setup_event ev = true) tr → EvGenerateData s d ∉ tr.
Proof. intros Hs Hin. eapply Forall_forall in Hs; [|exact Hin]. done. Qed.


Lemma kind_not_metadata tr s d :
  Forall (λ ev, is_Some (event_kind ev)) tr → EvGenerateData s d ∉ tr.
Proof.
  intros Hs Hin. eapply Forall_forall in Hs; [|exact Hin].
  by destruct Hs.
Qed.



Lemma metadata_not_in_removes s d l : EvGenerateData s d ∉ map EvRemove l.
Proof. by intros (q & [=] & ?)%list_elem_of_fmap. Qed.

(** ** The end of the build *)

(** X6: the metadata generator is called only as the last call of a build
    whose two loops completed, for the build's own source and destination
    and a configuration that has an [accounts] section: by then every
    call of the loops and every removal has been made, every new artifact
    is on disk and every stale file is gone.  If the build fails
    nonetheless, the error is the generator's, and the output stays as it
    is. *)
Theorem generateData_runs_last E src dest network fs r fs' tr s d :
  buildApp E src dest network fs = (r, fs', tr) →
  EvGenerateData s d ∈ tr →
  ∃ plan fs0 tr0 accounts,
    prepare E src dest network fs = (inr plan, fs0, tr0)
    ∧ cfg_accounts (plan_config plan) = Some accounts
    ∧ s = src ∧ d = dest
    ∧ tr = tr0 ++ unitCalls E src dest plan
           ++ map EvRemove (stale (plan_original_build_files plan)
                              (newArtifacts E src dest plan))
           ++ [EvGenerateData src dest]
    ∧ (∀ p, p ∈ newArtifacts E src dest plan → is_Some (fs' !! p))
    ∧ (∀ p, p ∈ plan_original_build_files plan →
            p ∉ newArtifacts E src dest plan → fs' !! p = None)
    ∧ (∀ e, r = inl e → metadata E src dest (deploy accounts) = Some e).
Proof.
  intros Hbuild Hin.
  apply buildApp_inv in Hbuild
    as [(e & Hprep & ->)|(plan & fs0 & tr0 & t & Hprep & Hrun & ->)];
    pose proof (prepare_trace _ _ _ _ _ _ _ _ Hprep) as Hsetup.
  { by destruct (setup_not_metadata _ s d Hsetup). }
  apply elem_of_app in Hin as [Hin|Hin];
    [by destruct (setup_not_metadata _ s d Hsetup)|].
  apply build_outcomes in Hrun
    as [(e & -> & _ & Hk)|(fsw & -> & Hnew & _ & Hend)].
  { by destruct (kind_not_metadata _ s d Hk). }
  destruct (reconciled_final (plan_original_build_files plan) _ _ Hnew)
    as [Hkept Hgone].
  destruct Hend as [(_ & _ & ->)|(accounts & logs & Hacc & -> & ->)].
  { apply elem_of_app in Hin as [Hin|Hin].
    - by destruct (kind_not_metadata _ s d (unitCalls_kind E src dest plan)).
    - by destruct (metadata_not_in_removes s d _ Hin). }
  assert (s = src ∧ d = dest) as [-> ->].
  { apply elem_of_app in Hin as [Hin|Hin];
      [by destruct (kind_not_metadata _ s d (unitCalls_kind E src dest plan))|].
    apply elem_of_app in Hin as [Hin|Hin];
      [by destruct (metadata_not_in_removes s d _ Hin)|].
    apply list_elem_of_singleton in Hin. by injection Hin as -> ->. }
  exists plan, fs0, tr0, accounts.
  split; [done|]. split; [done|]. split; [done|]. split; [done|].
  split; [done|]. split; [done|]. split; [done|].
  intros e. by destruct (metadata E src dest (deploy accounts)); intros [= ->].
Qed.

(** The generator fails after a build of one module over an output
    directory that holds a stale file: the artifact is written and the
    stale file removed all the same. *)
Lemma generateData_runs_last_witness :
  let fs := Demo.files [ ("app/bos.config.json", Text "{}");
                         ("app/module/a.js", Text "A");
                         ("out/src/widget/old.jsx", Text "old") ] in
  let run := buildApp DemoX.envNoMetadata "app" "out" "mainnet" fs in
  ∃ plan fs0 tr0 accounts,
    prepare DemoX.envNoMetadata "app" "out" "mainnet" fs = (inr plan, fs0, tr0)
    ∧ cfg_accounts (plan_config plan) = Some accounts
    ∧ "app" = "app" ∧ "out" = "out"
    ∧ run.2 = tr0 ++ unitCalls DemoX.envNoMetadata "app" "out" plan
              ++ map EvRemove (stale (plan_original_build_files plan)
                                 (newArtifacts DemoX.envNoMetadata "app" "out"
                                    plan))
              ++ [EvGenerateData "app" "out"]
    ∧ (∀ p, p ∈ newArtifacts DemoX.envNoMetadata "app" "out" plan →
            is_Some (run.1.2 !! p))
    ∧ (∀ p, p ∈ plan_original_build_files plan →
            p ∉ newArtifacts DemoX.envNoMetadata "app" "out" plan →
            run.1.2 !! p = None)
    ∧ (∀ e, run.1.1 = inl e →
            metadata DemoX.envNoMetadata "app" "out" (deploy accounts)
            = Some e).
Proof.
  intros fs run.
  apply (generateData_runs_last DemoX.envNoMetadata "app" "out" "mainnet" fs
           run.1.1 run.1.2 run.2 "app" "out" (run_triple run)).
  assert (last run.2 = Some (EvGenerateData "app" "out")) as Hlast
    by (vm_compute; reflexivity).
  by apply last_Some_elem_of.
Defined.



(** X8: whatever the outcome of a build, a file is read, transpiled or
    has an artifact written for it only if it was catalogued for that
    loop: it lies under the loop's source root, it was on disk when
    [prepare] was done, and it ends in one of the four source
    extensions. *)
Theorem only_catalogued_units_processed E src dest network fs r fs' tr ev k :
  buildApp E src dest network fs = (r, fs', tr) →
  ev ∈ tr → event_kind ev = Some k →
  ∃ plan fs0 tr0 file,
    prepare E src dest network fs = (inr plan, fs0, tr0)
    ∧ isSourceFile file = true
    ∧ is_under (kindRoot src k) file = true
    ∧ is_Some (fs0 !! file)
    ∧ (ev = EvReadFile k file ∨ (∃ o, ev = EvTranspile k file o)
       ∨ ev = EvOutputFile k
                (match k with
                 | Module => moduleOutputPath E src dest
                 | Widget => widgetOutputPath E src dest
                 end file)).
Proof.
  intros Hbuild Hin Hk.
  apply buildApp_inv in Hbuild
    as [(e & Hprep & ->)|(plan & fs0 & tr0 & t & Hprep & Hrun & ->)];
    pose proof (prepare_trace _ _ _ _ _ _ _ _ Hprep) as Hsetup.
  { eapply Forall_forall in Hsetup; [|exact Hin].
    apply setup_event_kind in Hsetup. congruence. }
  apply elem_of_app in Hin as [Hin|Hin].
  { eapply Forall_forall in Hsetup; [|exact Hin].
    apply setup_event_kind in Hsetup. congruence. }
  destruct (build_units _ _ _ _ _ _ _ _ _ _ Hrun Hin Hk) as (f & Hf & Hshape).
  destruct (prepare_plan _ _ _ _ _ _ _ _ Hprep) as (Hmods & Hwids & _).
  exists plan, fs0, tr0, f. split; [done|].
  assert (f ∈ catalog (kindRoot src k) fs0) as Hcat.
  { unfold kindRoot. destruct k; [by rewrite <- Hmods|by rewrite <- Hwids]. }
  apply catalog_elem in Hcat as (? & ? & ?). done.
Qed.

(** A file under the module root that is not a source file is never
    read. *)
Lemma only_catalogued_units_processed_witness :
  let fs := Demo.files [ ("app/bos.config.json", Text "{}");
                         ("app/module/a.js", Text "A");
                         ("app/module/notes.md", Text "N") ] in
  let run := buildApp Demo.env "app" "out" "mainnet" fs in
  ∃ plan fs0 tr0 file,
    prepare Demo.env "app" "out" "mainnet" fs = (inr plan, fs0, tr0)
    ∧ isSourceFile file = true
    ∧ is_under (kindRoot "app" Module) file = true
    ∧ is_Some (fs0 !! file)
    ∧ (EvReadFile Module "app/module/a.js" = EvReadFile Module file
       ∨ (∃ o, EvReadFile Module "app/module/a.js" = EvTranspile Module file o)
       ∨ EvReadFile Module "app/module/a.js"
         = EvOutputFile Module (moduleOutputPath Demo.env "app" "out" file)).
Proof.
  intros fs run.
  apply (only_catalogued_units_processed Demo.env "app" "out" "mainnet" fs
           run.1.1 run.1.2 run.2 (EvReadFile Module "app/module/a.js") Module
           (run_triple run)); [|reflexivity].
  assert (run.2 !! 7%nat = Some (EvReadFile Module "app/module/a.js")) as Hat
    by (vm_compute; reflexivity).
  by eapply list_elem_of_lookup_2.
Defined.



(** ** What a successful build leaves behind *)





(** X11: the calls of a build that succeeds, in order: the configuration
    is read, then every alias source, then the assets are published by
    [updateIpfs] with the upload options of the configuration; the catalog
    and the snapshot are taken on the file system [updateIpfs] leaves, and
    the asset map of the build context is the one it returned; every module
    is read, transpiled and written, then every widget; the stale files
    are removed; the metadata generator is called last. *)
Theorem successful_build_calls E src dest network fs logs fs' tr :
  buildApp E src dest network fs = (inr logs, fs', tr) →
  ∃ plan fs0 tr0 ipfs tp,
    prepare E src dest network fs = (inr plan, fs0, tr0)
    ∧ cfg_ipfs (plan_config plan) = Some ipfs
    ∧ updateIpfs E src dest
        {| uploadAPI_url := uploadApi ipfs;
           uploadAPI_headers := uploadApiHeaders ipfs |} fs
      = (inr (p_ipfsMap (plan_params plan)), fs0, tp)
    ∧ plan_modules plan = catalog (Path.join [src; "module"]) fs0
    ∧ plan_widgets plan = catalog (Path.join [src; "widget"]) fs0
    ∧ plan_original_build_files plan
      = filesUnder (Path.join [dest; "src"; "widget"]) fs0
    ∧ tr = (EvReadConfig (Path.join [src; "bos.config.json"]) network
            :: map (λ a, EvReadJson (Path.join [src; a]))
                 (aliasSources (Some (plan_config plan)) src))
           ++ tp
           ++ [EvWalk (Path.join [src; "module"]);
               EvWalk (Path.join [src; "widget"]);
               EvWalk (Path.join [dest; "src"; "widget"])]
           ++ unitCalls E src dest plan
           ++ map EvRemove (stale (plan_original_build_files plan)
                              (newArtifacts E src dest plan))
           ++ [EvGenerateData src dest].
Proof.
  intros Hbuild.
  apply buildApp_inv in Hbuild
    as [(e & _ & [=])|(plan & fs0 & tr0 & t & Hprep & Hrun & ->)].
  destruct (prepare_config _ _ _ _ _ _ _ _ Hprep)
    as (_ & _ & ipfs & tp & Hipfs & _ & Hup & ->).
  destruct (prepare_plan _ _ _ _ _ _ _ _ Hprep) as (Hmods & Hwids & _).
  pose proof (prepare_snapshot _ _ _ _ _ _ _ _ Hprep) as Hsnap.
  eexists plan, fs0, _, ipfs, tp.
  split; [exact Hprep|]. split; [done|]. split; [done|]. split; [done|].
  split; [done|]. split; [done|].
  apply build_outcomes in Hrun
    as [(e & [=] & _)|(fsw & _ & _ & _ & Hend)].
  destruct Hend as [(_ & [=] & _)|(accounts & logs' & _ & _ & ->)].
  cbn [app]. by rewrite <- !app_assoc.
Qed.

Lemma successful_build_calls_witness :
  let fs := Demo.files [ ("app/bos.config.json", Text "{}");
                         ("app/module/a.js", Text "A");
                         ("app/ipfs/logo.png", Text "L") ] in
  let run := buildApp Demo.env "app" "out" "mainnet" fs in
  ∃ plan fs0 tr0 ipfs tp,
    prepare Demo.env "app" "out" "mainnet" fs = (inr plan, fs0, tr0)
    ∧ cfg_ipfs (plan_config plan) = Some ipfs
    ∧ updateIpfs Demo.env "app" "out"
        {| uploadAPI_url := uploadApi ipfs;
           uploadAPI_headers := uploadApiHeaders ipfs |} fs
      = (inr (p_ipfsMap (plan_params plan)), fs0, tp)
    ∧ plan_modules plan = catalog (Path.join ["app"; "module"]) fs0
    ∧ plan_widgets plan = catalog (Path.join ["app"; "widget"]) fs0
    ∧ plan_original_build_files plan
      = filesUnder (Path.join ["out"; "src"; "widget"]) fs0
    ∧ run.2 = (EvReadConfig (Path.join ["app"; "bos.config.json"]) "mainnet"
               :: map (λ a, EvReadJson (Path.join ["app"; a]))
                    (aliasSources (Some (plan_config plan)) "app"))
              ++ tp
              ++ [EvWalk (Path.join ["app"; "module"]);
                  EvWalk (Path.join ["app"; "widget"]);
                  EvWalk (Path.join ["out"; "src"; "widget"])]
              ++ unitCalls Demo.env "app" "out" plan
              ++ map EvRemove (stale (plan_original_build_files plan)
                                 (newArtifacts Demo.env "app" "out" plan))
              ++ [EvGenerateData "app" "out"].
Proof.
  intros fs run.
  apply (successful_build_calls Demo.env "app" "out" "mainnet" fs
           (Demo.okOr [] run) run.1.2 run.2).
  apply run_eta. vm_compute; reflexivity.
Defined.

(** ** The alias table (lines 28-33) *)

Lemma mergeAliases_lookup_Some l k v :
  mergeAliases l !! k = Some v →
  k ≠ "__proto__" ∧ ∃ o, o ∈ l ∧ o !! k = Some v.
Proof.
  revert v. induction l as [|o l IH] using rev_ind; intros v.
  { unfold mergeAliases. simpl. by rewrite lookup_empty. }
  rewrite mergeAliases_snoc, assign_lookup.
  destruct (o !! k) as [v'|] eqn:Ho.
  - destruct (String.eqb k "__proto__") eqn:Hk; simpl.
    + destruct (mergeAliases l !! k) as [v0|] eqn:Hm.
      * rewrite bool_decide_eq_false_2 by done. intros [= <-].
        destruct (IH v0 eq_refl) as [Hne _]. split; [done|].
        exists o. split; [|done]. apply elem_of_app. right. by left.
      * by rewrite bool_decide_eq_true_2.
    + intros [= <-]. split; [by apply String.eqb_neq|].
      exists o. split; [|done]. apply elem_of_app. right. by left.
  - intros Hm. destruct (IH v Hm) as (Hne & o' & Ho' & Hv).
    split; [done|]. exists o'. split; [|done]. apply elem_of_app. by left.
Qed.

Lemma mergeAliases_lookup_is_Some l o k :
  k ≠ "__proto__" → o ∈ l → is_Some (o !! k) → is_Some (mergeAliases l !! k).
Proof.
  intros Hk. induction l as [|o' l IH] using rev_ind; intros Hin Ho.
  { by apply elem_of_nil in Hin. }
  rewrite mergeAliases_snoc, assign_lookup_plain by done.
  destruct (o' !! k) as [v'|] eqn:Ho'; [by eexists|].
  apply elem_of_app in Hin as [Hin|Hin]; [by apply IH|].
  apply list_elem_of_singleton in Hin as ->. rewrite Ho' in Ho.
  by destruct Ho.
Qed.

(** X12: every entry of the alias table comes from an alias source that
    holds a JSON object with that entry, and no entry is named
    [__proto__]; conversely every other key of an alias source that loads
    is a key of the table. *)
Theorem alias_table_provenance src aliasesSrcs fs table fs' tr :
  loadAliases src aliasesSrcs fs = (inr table, fs', tr) →
  (∀ k v, table !! k = Some v →
          k ≠ "__proto__"
          ∧ ∃ a o, a ∈ aliasesSrcs
                   ∧ fs !! Path.join [src; a] = Some (Json o)
                   ∧ o !! k = Some v)
  ∧ (∀ k a o, k ≠ "__proto__" → a ∈ aliasesSrcs →
              fs !! Path.join [src; a] = Some (Json o) →
              is_Some (o !! k) → is_Some (table !! k)).
Proof.
  rewrite loadAliases_run. intros [= <- _ _]. split.
  - intros k v Hk. apply mergeAliases_lookup_Some in Hk as (Hne & o & Ho & Hv).
    split; [done|]. apply list_elem_of_fmap in Ho as (a & -> & Ha).
    unfold aliasesData in Hv.
    destruct (fs !! Path.join [src; a]) as [[s|o]|] eqn:Hfile;
      [by rewrite lookup_empty in Hv| |by rewrite lookup_empty in Hv].
    by exists a, o.
  - intros k a o Hk Ha Hfile Ho.
    apply (mergeAliases_lookup_is_Some _ o); [done| |done].
    apply list_elem_of_fmap. exists a. split; [|done].
    unfold aliasesData. by rewrite Hfile.
Qed.

Lemma alias_table_provenance_witness :
  let fs := Demo.files
              [ ("app/one.json", Json {["x" := "1"; "__proto__" := "p"]});
                ("app/two.json", Text "not json") ] in
  let run := loadAliases "app" ["one.json"; "two.json"] fs in
  is_Some (Demo.okOr ∅ run !! "x").
Proof.
  intros fs run.
  refine (proj2 (alias_table_provenance "app" ["one.json"; "two.json"] fs
                   (Demo.okOr ∅ run) run.1.2 run.2 (run_eta ∅ run _))
            "x" "one.json" {["x" := "1"; "__proto__" := "p"]} _ _ _ _).
  - vm_compute; reflexivity.
  - intros Heq; discriminate Heq.
  - by left.
  - vm_compute; reflexivity.
  - by exists "1".
Defined.

(** ** Where widget artifacts go (lines 137-141) *)

Lemma split_sep_app_sep q s :
  JsString.split_sep (q +:+ "/" +:+ s)
  = JsString.split_sep q ++ JsString.split_sep s.
Proof.
  induction q as [|c q IH]; [done|].
  rewrite string_app_cons. simpl. rewrite IH.
  destruct (split_sep_cons q) as (h & t & ->).
  by destruct (Ascii.eqb c "/").
Qed.

Lemma normalize_segs_keep allow l s :
  2 < String.length s →
  Path.normalize_segs allow (l ++ [s]) = Path.normalize_segs allow l ++ [s].
Proof.
  intros Hlen. unfold Path.normalize_segs.
  rewrite fold_left_app. simpl. by rewrite norm_step_keeps.
Qed.

Lemma join_app_last sep K s :
  K ≠ [] → JsString.join sep (K ++ [s]) = JsString.join sep K +:+ sep +:+ s.
Proof.
  induction K as [|h K IH]; [done|]. intros _.
  destruct K as [|h' K]; [done|].
  change (JsString.join sep ((h :: h' :: K) ++ [s]))
    with (h +:+ sep +:+ JsString.join sep ((h' :: K) ++ [s])).
  rewrite IH by done. rewrite join_cons. by rewrite !string_app_assoc.
Qed.

Lemma string_app_not_empty a b : 0 < String.length b → a +:+ b ≠ "".
Proof.
  intros Hlen H. apply (f_equal String.length) in H.
  rewrite string_length_app in H. simpl in H. lia.
Qed.

Lemma no_trailing_sep y s :
  has_sep s = false → 0 < String.length s →
  Path.has_trailing_sep (y +:+ s) = false.
Proof.
  intros Hsep Hlen. unfold Path.has_trailing_sep.
  rewrite last_char_app by (intros ->; simpl in Hlen; lia).
  destruct (JsString.last_char s) as [c|] eqn:Hc; [|done].
  by eapply last_char_no_sep.
Qed.

Lemma is_absolute_app q s : q ≠ "" → Path.is_absolute (q +:+ s) = Path.is_absolute q.
Proof. by destruct q. Qed.

(** Normalising [q/name], where [q] ends with a plain segment and [name]
    is one: [name] is appended to the normal form of [q]. *)
Lemma normalize_child y d name :
  has_sep d = false → 2 < String.length d →
  has_sep name = false → 2 < String.length name →
  Path.normalize ((y +:+ d) +:+ "/" +:+ name)
  = Path.normalize (y +:+ d) +:+ "/" +:+ name.
Proof.
  intros Hd Hdlen Hn Hnlen. unfold Path.normalize.
  assert (y +:+ d ≠ "") as Hq by (apply string_app_not_empty; lia).
  assert ((y +:+ d) +:+ "/" +:+ name ≠ "") as Hqn.
  { apply string_app_not_empty. rewrite string_length_app. simpl. lia. }
  apply String.eqb_neq in Hqn. rewrite Hqn.
  pose proof Hq as Hq'. apply String.eqb_neq in Hq'. rewrite Hq'.
  rewrite is_absolute_app by done.
  rewrite split_sep_app_sep, (split_sep_no_sep name) by done.
  destruct (split_sep_app_no_sep y d Hd) as (init & l & ->).
  assert (2 < String.length (l +:+ d)) as Hld
    by (rewrite string_length_app; lia).
  rewrite !normalize_segs_keep by done.
  set (K := Path.normalize_segs (negb (Path.is_absolute (y +:+ d))) init
            ++ [l +:+ d]).
  assert (K ≠ []) as HK by (subst K; by intros [_ [=]]%app_eq_nil).
  rewrite join_app_last by done.
  assert (JsString.join "/" K ≠ "") as Hbody.
  { subst K. destruct (join_snoc "/"
                         (Path.normalize_segs
                            (negb (Path.is_absolute (y +:+ d))) init)
                         (l +:+ d)) as (pre & ->).
    apply string_app_not_empty. lia. }
  apply String.eqb_neq in Hbody. rewrite Hbody.
  assert (JsString.join "/" K +:+ "/" +:+ name ≠ "") as Hbody'.
  { apply string_app_not_empty. rewrite string_length_app. simpl. lia. }
  apply String.eqb_neq in Hbody'. rewrite Hbody'.
  rewrite (no_trailing_sep y d) by (done || lia).
  assert (Path.has_trailing_sep ((y +:+ d) +:+ "/" +:+ name) = false) as ->.
  { rewrite <- string_app_assoc. apply no_trailing_sep; [done|lia]. }
  by rewrite !string_app_nil_r, !string_app_assoc.
Qed.

Lemma outputPath_child dest name :
  has_sep name = false → 2 < String.length name →
  outputPath dest name = Path.join [dest; "src"; "widget"] +:+ "/" +:+ name.
Proof.
  intros Hsep Hlen. unfold outputPath, Path.join.
  assert (name ≠ "") as Hne by (intros ->; simpl in Hlen; lia).
  rewrite !(filter_cons _ dest). destruct (decide (dest ≠ "")).
  - rewrite !filter_cons_True by done. rewrite filter_nil.
    change (JsString.join "/" [dest; "src"; "widget"; name])
      with (dest +:+ "/" +:+ "src" +:+ "/" +:+ "widget" +:+ "/" +:+ name).
    change (JsString.join "/" [dest; "src"; "widget"])
      with (dest +:+ "/" +:+ "src" +:+ "/" +:+ "widget").
    pose proof (normalize_child (dest +:+ "/" +:+ "src" +:+ "/") "widget" name
                  eq_refl ltac:(simpl; lia) Hsep Hlen) as Hchild.
    rewrite !string_app_assoc in Hchild. exact Hchild.
  - rewrite !filter_cons_True by done. rewrite filter_nil.
    exact (normalize_child "src/" "widget" name eq_refl ltac:(simpl; lia)
             Hsep Hlen).
Qed.

Lemma prefix_app a b : String.prefix a (a +:+ b) = true.
Proof.
  induction a as [|x a IH]; [by destruct b|].
  rewrite string_app_cons. simpl. by destruct (ascii_dec x x).
Qed.

(** X13: the artifact of a widget is written directly into the output
    directory, whatever the source and destination roots are: its path is
    the output directory, a separator and the artifact's file name, which
    holds no separator. *)
Theorem widget_artifacts_are_flat E src dest file :
  has_sep (widgetOutputName E src file) = false
  ∧ widgetOutputPath E src dest file
    = Path.join [dest; "src"; "widget"] +:+ "/" +:+ widgetOutputName E src file
  ∧ is_under (Path.join [dest; "src"; "widget"])
      (widgetOutputPath E src dest file) = true.
Proof.
  assert (has_sep (widgetOutputName E src file) = false) as Hsep.
  { unfold widgetOutputName. cbv zeta.
    by rewrite has_sep_app, split_join_flat. }
  assert (2 < String.length (widgetOutputName E src file)) as Hlen.
  { unfold widgetOutputName. cbv zeta. rewrite string_length_app. simpl. lia. }
  assert (widgetOutputPath E src dest file
          = Path.join [dest; "src"; "widget"] +:+ "/"
            +:+ widgetOutputName E src file) as Hpath
    by (by apply outputPath_child).
  split; [done|]. split; [done|].
  unfold is_under. rewrite Hpath, <- string_app_assoc. apply prefix_app.
Qed.

(** ** Why a build fails *)

Section BatchFailure.
Context (E : Env) (k : Kind) (outp : string → string).
Context (src : string) (plan : BuildPlan).



End BatchFailure.


